(** * lfd: action selection and registration/trajectory transfer

    A shallow embedding of [core/action_selection.py] and
    [lfd/transfer/registration_transfer.py].

    Python exceptions are carried by an error monad, dictionaries are
    stdpp finite maps or total lookups returning [option], and the
    collaborators that live outside these two files (registration, spline
    fitting, kinematics, the trajectory optimizer) are fields of an
    interface record. *)

From Stdlib Require Import QArith Qabs.
From stdpp Require Import gmap strings list sorting.

Set Default Proof Using "Type".

(** ** Python exceptions *)

Inductive exn : Type :=
  | KeyError
  | ValueError
  | IndexError
  | TypeError
  | ZeroDivisionError
  | AssertionError
  | NotImplementedError (msg : string).

Inductive result (A : Type) : Type :=
  | Ok (a : A)
  | Raise (e : exn).
Arguments Ok {A} a.
Arguments Raise {A} e.

Global Instance result_ret : MRet result := fun _ a => Ok a.
Global Instance result_bind : MBind result := fun _ _ f m =>
  match m with
  | Ok a => f a
  | Raise e => Raise e
  end.

Global Instance result_fmap : FMap result := fun _ _ f m =>
  match m with
  | Ok a => Ok (f a)
  | Raise e => Raise e
  end.

Definition returns {A} (m : result A) : Prop := ∃ a, m = Ok a.

Definition py_assert (b : bool) : result unit :=
  if b then Ok tt else Raise AssertionError.

(** ** core/action_selection.py *)

Module ActionSelection.

(** [sorted] compares the tuples [(q_value, action)] lexicographically:
    first the cost, then the demonstration name. *)
Definition tuple_leb (x y : Q * string) : bool :=
  match (x.1 ?= y.1)%Q with
  | Lt => true
  | Eq => String.leb x.2 y.2
  | Gt => false
  end.

Definition tuple_le (x y : Q * string) : Prop := tuple_leb x y = true.

Global Instance tuple_le_dec x y : Decision (tuple_le x y).
Proof. unfold tuple_le. apply _. Defined.

Definition sorted (l : list (Q * string)) : list (Q * string) :=
  merge_sort tuple_le l.

(** [zip] applied to the unpacked rows: the transpose of a list of pairs
    is a list of two tuples, and of no rows at all the empty list. *)
Definition zip_star (rows : list (Q * string)) : list (list Q + list string) :=
  match rows with
  | [] => []
  | _ => [inl (rows.*1); inr (rows.*2)]
  end.

(** [q_values, agenda = ...]: unpacking into two targets. *)
Definition unpack2 {A} (l : list A) : result (A * A) :=
  match l with
  | [a; b] => Ok (a, b)
  | _ => Raise ValueError
  end.

Record RegistrationFactory (SceneState : Type) : Type := {
  batch_cost : SceneState → gmap string Q
}.
Arguments batch_cost {SceneState} _ _.

Section Greedy.
Context {SceneState : Type}.

(** [GreedyActionSelection.plan_agenda] *)
Definition plan_agenda (registration_factory : RegistrationFactory SceneState)
    (scene_state : SceneState)
    : result ((list Q + list string) * (list Q + list string)) :=
  let action2q_value := batch_cost registration_factory scene_state in
  '(q_values, agenda) ←
    unpack2 (zip_star (sorted
      ((λ '(action, q_value), (q_value, action)) <$> map_to_list action2q_value)));
  Ok (agenda, q_values).
End Greedy.

End ActionSelection.

(** ** Scalars

    numpy and Python floats are used through this interface only, so that
    nothing below depends on how float64 rounds.  [lit] reads a decimal
    literal, [of_int] is the conversion of a Python int. *)

Class Scalar (R : Type) : Type := {
  lit : Q → R;
  of_int : Z → R;
  radd : R → R → R;
  rsub : R → R → R;
  rmul : R → R → R;
  rdiv : R → R → R;
  rneg : R → R;
  rabs : R → R;
  rltb : R → R → bool
}.

(** Exact rational arithmetic, kept in lowest terms so that results can be
    compared syntactically. *)
Global Instance Q_scalar : Scalar Q := {|
  lit q := Qred q;
  of_int z := inject_Z z;
  radd a b := Qred (a + b);
  rsub a b := Qred (a - b);
  rmul a b := Qred (a * b);
  rdiv a b := Qred (a / b);
  rneg a := Qred (- a);
  rabs a := Qred (Qabs a);
  rltb a b := match (a ?= b)%Q with Lt => true | _ => false end
|}.

(** Python's [x / n] for a float [x] and an int [n] (true division). *)
Definition py_div `{Scalar R} (x : R) (n : Z) : result R :=
  if decide (n = 0%Z) then Raise ZeroDivisionError else Ok (rdiv x (of_int n)).

(** The two grippers, and the two fingers of a gripper: ['l'] and ['r']. *)
Inductive side : Type := side_l | side_r.

Global Instance side_eq_dec : EqDecision side.
Proof. solve_decision. Defined.

Definition side_str (s : side) : string :=
  match s with side_l => "l" | side_r => "r" end.

(** A dictionary keyed by ['l'] / ['r']. *)
Definition lrdict (A : Type) : Type := side → option A.

Definition getitem {A} (d : lrdict A) (k : side) : result A :=
  match d k with
  | Some v => Ok v
  | None => Raise KeyError
  end.

(** ** Arrays *)

Section Arrays.
Context {R : Type} `{Scalar R}.

(** A row of an (n, 3) array. *)
Record point : Type := Pt { px : R; py : R; pz : R }.

Definition pmap (f : R → R) (p : point) : point :=
  Pt (f (px p)) (f (py p)) (f (pz p)).
Definition pzip (f : R → R → R) (p q : point) : point :=
  Pt (f (px p) (px q)) (f (py p) (py q)) (f (pz p) (pz q)).

(** The (4, 3) array of the four contact points of one finger at one
    timestep. *)
Record corners : Type := Corners { c0 : point; c1 : point; c2 : point; c3 : point }.

Definition corner_rows (c : corners) : list point := [c0 c; c1 c; c2 c; c3 c].

(** What [sim_util.get_finger_pts_traj] returns: for each finger, one
    (4, 3) array per timestep. *)
Record finger_pts : Type := FingerPts {
  fl : list corners;
  fr : list corners
}.

Definition finger (flr : finger_pts) (finger_lr : side) : list corners :=
  match finger_lr with side_l => fl flr | side_r => fr flr end.

(** An (n, k) array of joint values: [mcols] is [shape[1]]. *)
Record matrix : Type := Mat { mcols : nat; mrows : list (list R) }.

(** [np.zeros((n, 0))] *)
Definition np_zeros_n_0 (n : nat) : matrix := Mat 0 (replicate n []).

(** [np.c_[a, b]]: the rows side by side; the numbers of rows must agree. *)
Definition np_c_ (a b : matrix) : result matrix :=
  if decide (length (mrows a) = length (mrows b))
  then Ok (Mat (mcols a + mcols b) (zip_with app (mrows a) (mrows b)))
  else Raise ValueError.

(** [np.concatenate(ms, axis=1)] *)
Fixpoint np_concatenate_axis1 (ms : list matrix) : result matrix :=
  match ms with
  | [] => Raise ValueError
  | [m] => Ok m
  | m :: ms' => rest ← np_concatenate_axis1 ms'; np_c_ m rest
  end.

(** [c * m] for a scalar [c]. *)
Definition mscale (c : R) (m : matrix) : matrix :=
  Mat (mcols m) ((λ row : list R, rmul c <$> row) <$> mrows m).

(** [m[:, j] = v] *)
Definition set_column (m : matrix) (j : nat) (v : R) : result matrix :=
  if decide (j < mcols m)
  then Ok (Mat (mcols m) ((λ row : list R, <[j := v]> row) <$> mrows m))
  else Raise IndexError.

(** [np.zeros(a.shape)] for an (n, 3) array [a]. *)
Definition np_zeros_like (a : list point) : list point :=
  (λ _, Pt (lit 0) (lit 0) (lit 0)) <$> a.

(** [a[:, 0] = v] *)
Definition set_column0 (a : list point) (v : R) : list point :=
  (λ p, Pt v (py p) (pz p)) <$> a.

Definition np_neg (a : list point) : list point := pmap rneg <$> a.
Definition np_abs (a : list point) : list point := pmap rabs <$> a.
Definition np_scale (c : R) (a : list point) : list point := pmap (rmul c) <$> a.

(** [a - b] for two arrays with three columns: shapes must agree, except
    that a single row is broadcast against the other array. *)
Definition np_sub (a b : list point) : result (list point) :=
  if decide (length a = length b) then Ok (zip_with (pzip rsub) a b)
  else match a, b with
       | [x], _ => Ok (pzip rsub x <$> b)
       | _, [y] => Ok ((λ x, pzip rsub x y) <$> a)
       | _, _ => Raise ValueError
       end.

(** [a[i:i+4, :]]: slices stop at the end of the array. *)
Definition rows4 (a : list point) (i : nat) : list point := take 4 (drop i a).

(** The builtin [sum] starts from the int [0] and adds the items one by
    one; over the rows of an array the running total is a row. *)
Inductive running : Type :=
  | RInt (z : Z)
  | RRow (p : point).

Definition running_add (acc : running) (row : point) : running :=
  match acc with
  | RInt z => RRow (pmap (radd (of_int z)) row)
  | RRow p => RRow (pzip radd p row)
  end.

Definition sum_rows (a : list point) : running := foldl running_add (RInt 0) a.

(** [sum(sum(a))]; an int is not iterable. *)
Definition sum_sum (a : list point) : result R :=
  match sum_rows a with
  | RInt _ => Raise TypeError
  | RRow p => Ok (foldl radd (of_int 0) [px p; py p; pz p])
  end.

(** [a.size] *)
Definition np_size (a : list point) : Z := Z.of_nat (length a) * 3.

End Arrays.

Arguments point R : clear implicits.
Arguments corners R : clear implicits.
Arguments finger_pts R : clear implicits.
Arguments matrix R : clear implicits.
Arguments running R : clear implicits.

(** ** lfd/transfer/registration_transfer.py: data *)

(** [isinstance(obj, C)]: [C] is among the classes the object's class
    derives from. *)
Definition isinstance (mro : list string) (C : string) : bool :=
  bool_decide (C ∈ mro).

Section Transfer.
Context {R : Type} `{Scalar R}.
Context {Hmat SceneState Robot Warp Fit : Type}.

Record AugmentedTrajectory : Type := {
  lr2arm_traj : lrdict (matrix R);
  lr2finger_traj : lrdict (matrix R);
  lr2ee_traj : lrdict (list Hmat);
  lr2open_finger_traj : lrdict (list bool);
  lr2close_finger_traj : lrdict (list bool)
}.

Record Demonstration : Type := {
  scene_state : SceneState;
  aug_traj : AugmentedTrajectory
}.

(** A bending or rotation coefficient: one number or one per dimension. *)
Inductive coef : Type :=
  | coef_scalar (c : R)
  | coef_vector (v : list R).

(** Per-point weights, of [ndim] 1 or 2. *)
Inductive weights : Type :=
  | wt_1d (w : list R)
  | wt_2d (w : list (list R)).

(** The trajectory argument of [sim_util.get_finger_pts_traj]: a pair
    (end-effector poses, finger joints) or a pair (joint trajectory,
    dof indices). *)
Inductive traj_arg : Type :=
  | ee_finger (ee_traj : list Hmat) (finger_traj : matrix R)
  | full_traj (traj : matrix R) (dof_inds : list Z).

(** The arguments of one call of [tps.tps_fit_decomp]. *)
Record fit_args : Type := FitArgs {
  fit_x_na : list (point R);
  fit_y_ng : list (point R);
  fit_bend_coefs : list R;
  fit_rot_coefs : list R;
  fit_wt_n : option weights;
  fit_tau_bd : list (point R);
  fit_lambda_bd : list (point R)
}.

(** The request handed to the trajectory optimizer. *)
Inductive cost : Type :=
  | joint_vel (coeffs : list R)
  | collision (continuous : bool) (coeffs : list R) (dist_pen : list R)
  | rel_pts_lambdas (lambdas : list (point R)) (rel_xyzs : list (point R))
      (link : string) (timestep : R) (pos_coeffs : list R).

Record request : Type := Request {
  n_steps : nat;
  manip : string;
  start_fixed : bool;
  costs : list cost;
  constraints : list cost;
  init_info : option (list (list R))
}.

(** Everything the module uses and does not define: the settings, the
    warp object [reg.f], [tps], [sim_util], the robot, the resampling of
    augmented trajectories and the trajectory optimizer. *)
Record Collaborators : Type := {
  JOINT_LENGTH_PER_STEP : R;
  FINGER_CLOSE_RATE : R;
  x_na : Warp → list (point R);
  y_ng : Warp → list (point R);
  bend_coef : Warp → coef;
  rot_coef : Warp → coef;
  wt_n : Warp → option weights;
  update : Warp → list (point R) → list (point R) → list R → list R →
           option weights → Fit → Warp;
  transform_point : Warp → point R → point R;
  tps_fit_decomp : fit_args → Fit;
  arm_moved : matrix R → bool;
  unif_resample : matrix R → R → list R;
  get_finger_pts_traj : Robot → side → traj_arg → finger_pts R;
  get_finger_rel_pts : side → corners R;
  dof_inds_from_name : Robot → string → list Z;
  GetJointIndex : Robot → string → Z;
  GetDOFLimits : Robot → list Z → list R * list R;
  get_resampled_traj : AugmentedTrajectory → list R → AugmentedTrajectory;
  OptimizeProblem : Robot → request → matrix R;
  create_from_full_traj : Robot → matrix R * list Z →
           lrdict (list bool) → lrdict (list bool) → AugmentedTrajectory
}.

Record Registration : Type := { reg_f : Warp }.

Record Simulation : Type := { robot : Robot }.

Record RegistrationFactory : Type := {
  rf_class : list string;
  register : Demonstration → SceneState → Registration
}.

Record TrajectoryTransferer : Type := {
  tt_class : list string;
  tt_sim : Simulation;
  tt_transfer : Registration → Demonstration → AugmentedTrajectory
}.

(** The instance attributes of the three strategies. *)
Record RegistrationAndTrajectoryTransferer : Type := {
  registration_factory : RegistrationFactory;
  trajectory_transferer : TrajectoryTransferer
}.

Record FingerStrategy : Type := {
  base : RegistrationAndTrajectoryTransferer;
  sim : Simulation;
  alpha : R;
  beta_pos : R;
  gamma : R;
  use_collision_cost : bool;
  init_trajectory_transferer : option TrajectoryTransferer
}.

(** ** The constructors *)

(** [RegistrationAndTrajectoryTransferer.__init__], which
    [TwoStepRegistrationAndTrajectoryTransferer] inherits unchanged. *)
Definition RegistrationAndTrajectoryTransferer_init
    (registration_factory : RegistrationFactory)
    (trajectory_transferer : TrajectoryTransferer)
    : result RegistrationAndTrajectoryTransferer :=
  Ok {| registration_factory := registration_factory;
        trajectory_transferer := trajectory_transferer |}.

Definition TwoStep_init := RegistrationAndTrajectoryTransferer_init.

(** The constructors of the Unified and of the Decomp strategy have the
    same body, up to the class name in the two messages. *)
Definition finger_strategy_init (name : string)
    (registration_factory : RegistrationFactory)
    (trajectory_transferer : TrajectoryTransferer)
    (alpha beta_pos gamma : R) (use_collision_cost : bool)
    (init_trajectory_transferer : option TrajectoryTransferer)
    : result FingerStrategy :=
  self ← RegistrationAndTrajectoryTransferer_init registration_factory trajectory_transferer;
  if negb (isinstance (rf_class registration_factory) "TpsRpmRegistrationFactory")
  then Raise (NotImplementedError (name +:+ " only supports TpsRpmRegistrationFactory"))
  else if negb (isinstance (tt_class trajectory_transferer) "FingerTrajectoryTransferer")
  then Raise (NotImplementedError (name +:+ " only supports FingerTrajectoryTransferer"))
  else Ok {| base := self;
             sim := tt_sim trajectory_transferer;
             alpha := alpha;
             beta_pos := beta_pos;
             gamma := gamma;
             use_collision_cost := use_collision_cost;
             init_trajectory_transferer := init_trajectory_transferer |}.

(** [UnifiedRegistrationAndTrajectoryTransferer.__init__] *)
Definition Unified_init :=
  finger_strategy_init "UnifiedRegistrationAndTrajectoryTransferer".

(** [DecompRegistrationAndTrajectoryTransferer.__init__] *)
Definition Decomp_init :=
  finger_strategy_init "DecompRegistrationAndTrajectoryTransferer".

(** [TwoStepRegistrationAndTrajectoryTransferer.transfer] *)
Definition TwoStep_transfer (self : RegistrationAndTrajectoryTransferer)
    (demo : Demonstration) (test_scene_state : SceneState)
    : result AugmentedTrajectory :=
  let reg := register (registration_factory self) demo test_scene_state in
  let test_aug_traj := tt_transfer (trajectory_transferer self) reg demo in
  Ok test_aug_traj.

End Transfer.

Arguments AugmentedTrajectory R Hmat : clear implicits.
Arguments Demonstration R Hmat SceneState : clear implicits.
Arguments coef R : clear implicits.
Arguments weights R : clear implicits.
Arguments traj_arg R Hmat : clear implicits.
Arguments fit_args R : clear implicits.
Arguments cost R : clear implicits.
Arguments request R : clear implicits.
Arguments Collaborators R Hmat Robot Warp Fit : clear implicits.
Arguments Registration Warp : clear implicits.
Arguments Simulation Robot : clear implicits.
Arguments RegistrationFactory R Hmat SceneState Warp : clear implicits.
Arguments TrajectoryTransferer R Hmat SceneState Robot Warp : clear implicits.
Arguments RegistrationAndTrajectoryTransferer R Hmat SceneState Robot Warp : clear implicits.
Arguments FingerStrategy R Hmat SceneState Robot Warp : clear implicits.

(** ** DecompRegistrationAndTrajectoryTransferer

    The model follows the path with [plotting=False]; the plotting
    branches only draw. *)

Section Decomp.
Context {R : Type} `{Scalar R}.
Context {Hmat SceneState Robot Warp Fit : Type}.
Context (C : Collaborators R Hmat Robot Warp Fit).

Abbreviation AugTraj := (AugmentedTrajectory R Hmat).
Abbreviation Demo := (Demonstration R Hmat SceneState).
Abbreviation Strategy := (FingerStrategy R Hmat SceneState Robot Warp).

(** Modelled from the spec: [transform_points] is a method of the warp
    object, which is not defined in this module; it applies the fitted warp
    to a point set, here point by point. *)
Definition transform_points (f : Warp) (pts : list (point R)) : list (point R) :=
  transform_point C f <$> pts.

(** [np.concatenate(pts_traj, axis=0)] on a list of (4, 3) arrays. *)
Definition np_concatenate_axis0 (pts_traj : list (corners R)) : result (list (point R)) :=
  match pts_traj with
  | [] => Raise ValueError
  | _ => Ok (concat (corner_rows <$> pts_traj))
  end.

(** The argument of [sim_util.unif_resample] for the arms [active_lr]. *)
Definition resample_key (aug_traj : AugTraj) (active_lr : list side) : result (matrix R) :=
  arms ← mapM (λ lr, getitem (lr2arm_traj aug_traj) lr) active_lr;
  arm ← np_concatenate_axis1 arms;
  fingers ← mapM (λ lr, getitem (lr2finger_traj aug_traj) lr) active_lr;
  finger ← np_concatenate_axis1 fingers;
  np_c_ (mscale (rdiv (lit 1) (JOINT_LENGTH_PER_STEP C)) arm)
        (mscale (rdiv (lit 1) (FINGER_CLOSE_RATE C)) finger).

(** [traj_to_points] *)
Definition traj_to_points (self : Strategy) (aug_traj : AugTraj) (resampling : bool)
    : result (finger_pts R) :=
  let active_lr := [side_r] in
  demo_aug_traj_rs ←
    (if resampling then
       key ← resample_key aug_traj active_lr;
       let timesteps_rs := unif_resample C key (lit 1) in
       Ok (get_resampled_traj C aug_traj timesteps_rs)
     else Ok aug_traj);
  let lr := side_r in
  (* arm_name = {"rl": "leftarm", "r": "rightarm"}[lr] and finger_name are
     assigned and not used *)
  ee_traj ← getitem (lr2ee_traj demo_aug_traj_rs) lr;
  finger_traj ← getitem (lr2finger_traj demo_aug_traj_rs) lr;
  Ok (get_finger_pts_traj C (robot (sim self)) lr (ee_finger ee_traj finger_traj)).

(** [points_to_array]: [np.r_] stacks the two fingers' (T, 4, 3) arrays,
    and the result is reshaped to (T' * 4, 3).  An empty list becomes an
    array of shape (0,): next to a non-empty one [np.r_] refuses it, and
    of two of them the result has no [shape[1]]. *)
Definition points_to_array (flr2demo_finger_pts_traj : finger_pts R)
    : result (list (point R)) :=
  match fl flr2demo_finger_pts_traj, fr flr2demo_finger_pts_traj with
  | [], [] => Raise IndexError
  | [], _ :: _ | _ :: _, [] => Raise ValueError
  | pl, pr => Ok (concat (corner_rows <$> (pl ++ pr)))
  end.

(** [np.ones(d) * c if np.isscalar(c) else c], with [d = 3]. *)
Definition expand_coef (c : coef R) : list R :=
  match c with
  | coef_scalar c => (λ one, rmul one c) <$> replicate 3 (lit 1)
  | coef_vector v => v
  end.

(** The arms that moved: [for lr in 'lr': if lr in lr2arm_traj and
    arm_moved(lr2arm_traj[lr])]. *)
Definition active_arms (aug_traj : AugTraj) : list side :=
  List.filter
    (λ lr, match lr2arm_traj aug_traj lr with
           | Some arm_traj => arm_moved C arm_traj
           | None => false
           end)
    [side_l; side_r].

(** The variables the loop over [active_lr] builds. *)
Record arm_vars : Type := ArmVars {
  manip_name : string;
  flr2finger_link_names : list (side → string);
  flr2demo_finger_pts_trajs_rs : list (finger_pts R);
  init_traj : matrix R;
  flr2finger_link_name : side → string;
  flr2finger_rel_pts : side → corners R;
  last_lr : side
}.

Definition finger_link_name (lr finger_lr : side) : string :=
  side_str lr +:+ "_gripper_" +:+ side_str finger_lr +:+ "_finger_tip_link".

(** One pass of [for lr in active_lr]. *)
Definition arm_pass (self : Strategy) (reg_f : Warp) (demo_aug_traj_rs : AugTraj)
    (v : arm_vars) (lr : side) : result arm_vars :=
  let arm_name := match lr with side_l => "leftarm" | side_r => "rightarm" end in
  let finger_name := side_str lr +:+ "_gripper_l_finger_joint" in
  let manip_name := if decide (manip_name v = "") then manip_name v else manip_name v +:+ "+" in
  let manip_name := manip_name +:+ (arm_name +:+ "+" +:+ finger_name) in
  arm_traj ← getitem (lr2arm_traj demo_aug_traj_rs) lr;
  finger_traj ← getitem (lr2finger_traj demo_aug_traj_rs) lr;
  init_traj ← (m ← np_c_ (init_traj v) arm_traj; np_c_ m finger_traj);
  ee_traj ← getitem (lr2ee_traj demo_aug_traj_rs) lr;
  finger_traj ← getitem (lr2finger_traj demo_aug_traj_rs) lr;
  let flr2demo_finger_pts_traj_rs :=
    get_finger_pts_traj C (robot (sim self)) lr (ee_finger ee_traj finger_traj) in
  _ ← mapM (λ finger_lr,
             pts ← np_concatenate_axis0 (finger flr2demo_finger_pts_traj_rs finger_lr);
             Ok (transform_points reg_f pts))
           [side_l; side_r];
  Ok {| manip_name := manip_name;
        flr2finger_link_names := flr2finger_link_names v ++ [finger_link_name lr];
        flr2demo_finger_pts_trajs_rs :=
          flr2demo_finger_pts_trajs_rs v ++ [flr2demo_finger_pts_traj_rs];
        init_traj := init_traj;
        flr2finger_link_name := finger_link_name lr;
        flr2finger_rel_pts := get_finger_rel_pts C;
        last_lr := lr |}.

Fixpoint arm_loop (self : Strategy) (reg_f : Warp) (demo_aug_traj_rs : AugTraj)
    (v : arm_vars) (active_lr : list side) : result arm_vars :=
  match active_lr with
  | [] => Ok v
  | lr :: rest =>
      v' ← arm_pass self reg_f demo_aug_traj_rs v lr;
      arm_loop self reg_f demo_aug_traj_rs v' rest
  end.

(** [dof_inds.index(joint_ind)] *)
Fixpoint list_index (x : Z) (xs : list Z) : result nat :=
  match xs with
  | [] => Raise ValueError
  | y :: ys => if decide (y = x) then Ok 0 else S <$> list_index x ys
  end.

(** [wt_n] expanded to one weight per point and dimension: ones when the
    warp has no weights, a column when they have one axis, and a column
    tiled three times. *)
Definition expand_wt_n (f : Warp) : weights R :=
  let n := length (x_na C f) in
  let wt_n := match wt_n C f with
              | None => wt_1d (replicate n (lit 1))
              | Some w => w
              end in
  let wt_n := match wt_n with
              | wt_1d w => (λ x, [x]) <$> w
              | wt_2d w => w
              end in
  wt_2d ((λ row, match row with [x] => replicate 3 x | _ => row end) <$> wt_n).

(** The request as built before the loop: the part that is the same in
    every iteration. *)
Definition base_request (self : Strategy) (n_steps : nat) (manip_name : string)
    (start_fixed : bool) : result (request R) :=
  coeff ← py_div (gamma self) (Z.of_nat n_steps - 1);
  let costs := [joint_vel [coeff]] in
  let costs :=
    if use_collision_cost self
    then costs ++ [collision true [of_int 1000] [lit 0.025]]
    else costs in
  Ok (Request n_steps manip_name start_fixed costs [] None).

(** [range(0, stop, 4)] *)
Definition range4 (stop : nat) : list nat := (λ k, 4 * k) <$> seq 0 ((stop + 3) / 4).

(** The body of [for i_step in range(0, traj_dim*2, 4)]: the cost it
    appends, or [None] when it [continue]s. *)
Definition lambda_cost (self : Strategy) (v : arm_vars) (n_steps : nat)
    (start_fixed : bool) (lambda_bd : list (point R)) (traj_dim i_step : nat)
    : result (option (cost R)) :=
  let '(finger_lr, traj_step) :=
    if decide (i_step < traj_dim) then (side_l, i_step) else (side_r, i_step - traj_dim) in
  let finger_link_name := flr2finger_link_name v finger_lr in
  let finger_rel_pts := flr2finger_rel_pts v finger_lr in
  if start_fixed && bool_decide (traj_step = 0) then Ok None
  else
    pos_coeff ← py_div (beta_pos self) (Z.of_nat n_steps);
    Ok (Some (rel_pts_lambdas
                (np_neg (rows4 lambda_bd traj_step))
                (corner_rows finger_rel_pts)
                finger_link_name
                (rdiv (of_int (Z.of_nat traj_step)) (of_int 4))
                (replicate 4 pos_coeff))).

(** The variables the alternating loop reads and does not assign. *)
Record loop_consts : Type := LoopConsts {
  lc_vars : arm_vars;
  lc_request : request R;
  lc_start_fixed : bool;
  lc_x_na : list (point R);
  lc_y_ng : list (point R);
  lc_bend_coefs : list R;
  lc_rot_coefs : list R;
  lc_wt_n : weights R;
  lc_tau_bd : list (point R);
  lc_nu : R;
  lc_traj_diff_thresh : R
}.

(** The variables it assigns: the warp [f] (the same object as [reg.f]),
    [cur_traj] and [lambda_bd]. *)
Record loop_vars : Type := LoopVars {
  lv_f : Warp;
  lv_cur_traj : matrix R;
  lv_lambda_bd : list (point R)
}.

(** What one iteration computed. *)
Record iteration_log : Type := IterationLog {
  it_lambda_bd : list (point R);
  it_request : request R;
  it_cur_traj : matrix R;
  it_fit_args : fit_args R;
  it_f : Warp;
  it_trajpts_tps : list (point R);
  it_trajpts_traj : list (point R);
  it_traj_diff : list (point R);
  it_abs_traj_diff : R;
  it_lambda_bd' : list (point R);
  it_converged : bool
}.

(** The body of [for itr in range(max_iter)]. *)
Definition iteration (self : Strategy) (k : loop_consts) (s : loop_vars)
    : result (loop_vars * iteration_log) :=
  let v := lc_vars k in
  let lambda_bd := lv_lambda_bd s in
  first ← match flr2demo_finger_pts_trajs_rs v with
          | [] => Raise IndexError
          | flr :: _ => Ok flr
          end;
  _ ← mapM (λ finger_lr,
             pts ← np_concatenate_axis0 (finger first finger_lr);
             Ok (transform_points (lv_f s) pts))
           [side_l; side_r];
  let traj_dim := length lambda_bd / 2 in
  lambda_costs ←
    mapM (lambda_cost self v (n_steps (lc_request k)) (lc_start_fixed k) lambda_bd traj_dim)
         (range4 (traj_dim * 2));
  let request_i :=
    Request (n_steps (lc_request k)) (manip (lc_request k)) (start_fixed (lc_request k))
            (costs (lc_request k) ++ omap id lambda_costs)
            (constraints (lc_request k))
            (Some (mrows (lv_cur_traj s))) in
  let cur_traj := OptimizeProblem C (robot (sim self)) request_i in
  let args := FitArgs (lc_x_na k) (lc_y_ng k) (lc_bend_coefs k) (lc_rot_coefs k)
                      (Some (lc_wt_n k)) (lc_tau_bd k) (np_neg lambda_bd) in
  let fit := tps_fit_decomp C args in
  let f := update C (lv_f s) (lc_x_na k) (lc_y_ng k) (lc_bend_coefs k) (lc_rot_coefs k)
                  (Some (lc_wt_n k)) fit in
  let trajpts_tps := transform_points f (lc_tau_bd k) in
  let full := full_traj cur_traj (dof_inds_from_name C (robot (sim self)) (manip_name v)) in
  trajpts_traj ← points_to_array (get_finger_pts_traj C (robot (sim self)) side_r full);
  traj_diff ← np_sub trajpts_traj trajpts_tps;
  abs_traj_diff ← sum_sum (np_abs traj_diff);
  lambda_bd' ← np_sub lambda_bd (np_scale (lc_nu k) traj_diff);
  Ok (LoopVars f cur_traj lambda_bd',
      IterationLog lambda_bd request_i cur_traj args f trajpts_tps trajpts_traj
                   traj_diff abs_traj_diff lambda_bd'
                   (rltb abs_traj_diff (lc_traj_diff_thresh k))).

(** [for itr in range(max_iter): ...; if abs_traj_diff < traj_diff_thresh: break] *)
Fixpoint loop (self : Strategy) (k : loop_consts) (max_iter : nat) (s : loop_vars)
    : result (loop_vars * list iteration_log) :=
  match max_iter with
  | 0 => Ok (s, [])
  | S max_iter' =>
      '(s', log) ← iteration self k s;
      if it_converged log then Ok (s', [log])
      else
        '(s'', logs) ← loop self k max_iter' s';
        Ok (s'', log :: logs)
  end.

(** [trace self k s logs s']: starting with the variables [s], the
    iterations logged in [logs] ran one after the other without raising
    and left the variables [s']. *)
Inductive trace (self : Strategy) (k : loop_consts)
    : loop_vars → list iteration_log → loop_vars → Prop :=
  | trace_nil s : trace self k s [] s
  | trace_cons s s1 s' log logs :
      iteration self k s = Ok (s1, log) →
      trace self k s1 logs s' →
      trace self k s (log :: logs) s'.

(** The local variables of [transfer] when it reaches its last line. *)
Record transfer_locals : Type := TransferLocals {
  tl_tau_bd : list (point R);
  tl_lambda_init : list (point R);
  tl_init_fit_args : fit_args R;
  tl_demo_aug_traj_rs : AugTraj;
  tl_vars : arm_vars;
  tl_request : request R;
  tl_iterations : list iteration_log;
  tl_cur_traj : matrix R;
  tl_lambda_bd : list (point R);
  tl_test_aug_traj : AugTraj
}.

Definition max_iter : nat := 20.

(** [transfer], up to and including the assignment of [test_aug_traj].
    [warped_points] and [target_traj], computed after the first fit, are
    only drawn and are left out; [start_fixed] is the constant [False], so
    the block under [if start_fixed] is left out as well. *)
Definition Decomp_transfer_locals (self : Strategy) (demo : Demo)
    (test_scene_state : SceneState) : result transfer_locals :=
  let reg := register (registration_factory (base self)) demo test_scene_state in
  let f0 := reg_f reg in
  pts ← traj_to_points self (aug_traj demo) true;
  tau_bd ← points_to_array pts;
  let lambda_bd := np_zeros_like tau_bd in
  let bend_coefs := expand_coef (bend_coef C f0) in
  let rot_coefs := expand_coef (rot_coef C f0) in
  let x_na := x_na C f0 in
  let y_ng := y_ng C f0 in
  let lambda_bd := set_column0 lambda_bd (lit 0.001) in
  let init_args := FitArgs x_na y_ng bend_coefs rot_coefs (wt_n C f0) tau_bd lambda_bd in
  let fit := tps_fit_decomp C init_args in
  let f := update C f0 x_na y_ng bend_coefs rot_coefs (wt_n C f0) fit in
  let active_lr := active_arms (aug_traj demo) in
  key ← resample_key (aug_traj demo) active_lr;
  let timesteps_rs := unif_resample C key (lit 1) in
  let demo_aug_traj_rs := get_resampled_traj C (aug_traj demo) timesteps_rs in
  v ← arm_loop self f demo_aug_traj_rs
         (ArmVars "" [] [] (np_zeros_n_0 (length timesteps_rs))
                  (finger_link_name side_r) (get_finger_rel_pts C) side_r)
         active_lr;
  init_traj ←
    (if bool_decide (is_Some (init_trajectory_transferer self)) then Ok (init_traj v)
     else
       let dof_inds := dof_inds_from_name C (robot (sim self)) (manip_name v) in
       let joint_ind :=
         GetJointIndex C (robot (sim self)) (side_str (last_lr v) +:+ "_shoulder_lift_joint") in
       limit ← match (GetDOFLimits C (robot (sim self)) [joint_ind]).1 with
               | [] => Raise IndexError
               | lower :: _ => Ok lower
               end;
       j ← list_index joint_ind dof_inds;
       set_column (init_traj v) j limit);
  let start_fixed := false in
  let n_steps := length (mrows init_traj) in
  let dof_inds := dof_inds_from_name C (robot (sim self)) (manip_name v) in
  _ ← py_assert (bool_decide (mcols init_traj = length dof_inds));
  _ ← mapM (λ flr, _ ← py_assert (bool_decide (length (fl flr) = n_steps));
                   py_assert (bool_decide (length (fr flr) = n_steps)))
           (flr2demo_finger_pts_trajs_rs v);
  _ ← py_assert (bool_decide (length (flr2finger_link_names v)
                              = length (flr2demo_finger_pts_trajs_rs v)));
  let wt_n := expand_wt_n f in
  request ← base_request self n_steps (manip_name v) start_fixed;
  let nu := lit 0.001 in
  let traj_diff_thresh := rmul (lit 1e-2) (of_int (np_size lambda_bd)) in
  let k := LoopConsts v request start_fixed x_na y_ng bend_coefs rot_coefs wt_n tau_bd
                      nu traj_diff_thresh in
  '(s, logs) ← loop self k max_iter (LoopVars f init_traj lambda_bd);
  let full := (lv_cur_traj s, dof_inds_from_name C (robot (sim self)) (manip_name v)) in
  let test_aug_traj :=
    create_from_full_traj C (robot (sim self)) full
      (lr2open_finger_traj demo_aug_traj_rs) (lr2close_finger_traj demo_aug_traj_rs) in
  Ok (TransferLocals tau_bd lambda_bd init_args demo_aug_traj_rs v request logs
                     (lv_cur_traj s) (lv_lambda_bd s) test_aug_traj).

(** [DecompRegistrationAndTrajectoryTransferer.transfer]: the function
    body ends without a [return] statement, so a call that does not raise
    evaluates to [None]. *)
Definition Decomp_transfer (self : Strategy) (demo : Demo)
    (test_scene_state : SceneState) : result (option AugTraj) :=
  _ ← Decomp_transfer_locals self demo test_scene_state;
  Ok None.

End Decomp.

(** The discrepancy in the spec's words: the absolute differences summed
    over all samples, for each of the three dimensions, and these summed. *)
Definition abs_sum `{Scalar R} (d : list (point R)) : R :=
  foldl radd (of_int 0)
        ((λ coord : point R → R, foldl radd (of_int 0) ((λ p, rabs (coord p)) <$> d))
           <$> [px; py; pz]).

(** The contact-following cost for the sample that starts at row [i_step]
    of the duals: it names the finger and the rows [traj_step .. traj_step+4]
    the loop computes from [i_step], and negates these rows. *)
Definition contact_following_cost `{Scalar R}
    (v : arm_vars) (lambda_bd : list (point R)) (traj_dim : nat) (pos_coeff : R)
    (i_step : nat) : cost R :=
  let finger_lr := if decide (i_step < traj_dim) then side_l else side_r in
  let traj_step := if decide (i_step < traj_dim) then i_step else i_step - traj_dim in
  rel_pts_lambdas (np_neg (rows4 lambda_bd traj_step))
                  (corner_rows (flr2finger_rel_pts v finger_lr))
                  (flr2finger_link_name v finger_lr)
                  (rdiv (of_int (Z.of_nat traj_step)) (of_int 4))
                  (replicate 4 pos_coeff).

(** [v] with other demonstration contact points, and [k] with other
    variables of the loop over the arms. *)
Definition with_pts_trajs {R : Type} (v : arm_vars) (pts : list (finger_pts R))
    : arm_vars :=
  ArmVars (manip_name v) (flr2finger_link_names v) pts (init_traj v)
          (flr2finger_link_name v) (flr2finger_rel_pts v) (last_lr v).

Definition with_vars {R : Type} (k : loop_consts) (v : @arm_vars R) : loop_consts :=
  LoopConsts v (lc_request k) (lc_start_fixed k) (lc_x_na k) (lc_y_ng k)
             (lc_bend_coefs k) (lc_rot_coefs k) (lc_wt_n k) (lc_tau_bd k)
             (lc_nu k) (lc_traj_diff_thresh k).

(** The same collaborators, except that the contact-point extractor answers
    [left_pts] whenever it is asked about the left gripper. *)
Definition with_left_pts {R Hmat Robot Warp Fit : Type}
    (C : Collaborators R Hmat Robot Warp Fit)
    (left_pts : Robot → traj_arg R Hmat → finger_pts R)
    : Collaborators R Hmat Robot Warp Fit := {|
  JOINT_LENGTH_PER_STEP := JOINT_LENGTH_PER_STEP C;
  FINGER_CLOSE_RATE := FINGER_CLOSE_RATE C;
  x_na := x_na C;
  y_ng := y_ng C;
  bend_coef := bend_coef C;
  rot_coef := rot_coef C;
  wt_n := wt_n C;
  update := update C;
  transform_point := transform_point C;
  tps_fit_decomp := tps_fit_decomp C;
  arm_moved := arm_moved C;
  unif_resample := unif_resample C;
  get_finger_pts_traj := λ robot lr arg,
    match lr with
    | side_l => left_pts robot arg
    | side_r => get_finger_pts_traj C robot side_r arg
    end;
  get_finger_rel_pts := get_finger_rel_pts C;
  dof_inds_from_name := dof_inds_from_name C;
  GetJointIndex := GetJointIndex C;
  GetDOFLimits := GetDOFLimits C;
  get_resampled_traj := get_resampled_traj C;
  OptimizeProblem := OptimizeProblem C;
  create_from_full_traj := create_from_full_traj C
|}.

(** ** A small concrete world

    Exact rationals for the scalars; two timesteps; both arms moved; the
    warp is the identity on points and remembers the dual argument of the
    last fit; the optimizer returns its initial guess; every achieved
    contact point is [(a, a, a)]. *)

Module Example.

Local Open Scope Q_scope.

Definition pt (x y z : Q) : point Q := Pt x y z.

Definition square (a : Q) : corners Q :=
  Corners (pt a a a) (pt a a a) (pt a a a) (pt a a a).

Definition column (a b : Q) : matrix Q := Mat 1%nat [[a]; [b]].

Definition both {A} (x : A) : lrdict A := λ _, Some x.

Definition right_only {A} (x : A) : lrdict A :=
  λ lr, match lr with side_l => None | side_r => Some x end.

Definition demo_traj : AugmentedTrajectory Q unit := {|
  lr2arm_traj := both (column 0 1);
  lr2finger_traj := both (column 0 1);
  lr2ee_traj := both [tt; tt];
  lr2open_finger_traj := both [false; true];
  lr2close_finger_traj := both [true; false]
|}.

Definition demo : Demonstration Q unit unit :=
  {| scene_state := tt; aug_traj := demo_traj |}.

(** [achieved] is the coordinate of the contact points the robot reaches,
    [left_pts] what the extractor answers for the left gripper. *)
Definition world (achieved : Q) (left_pts : finger_pts Q)
    : Collaborators Q unit unit (list (point Q)) (list (point Q)) := {|
  JOINT_LENGTH_PER_STEP := 1;
  FINGER_CLOSE_RATE := 1;
  x_na := λ _, [pt 0 0 0];
  y_ng := λ _, [pt 0 0 0];
  bend_coef := λ _, coef_scalar 1;
  rot_coef := λ _, coef_vector [1; 1; 1];
  wt_n := λ _, None;
  update := λ _ _ _ _ _ _ fit, fit;
  transform_point := λ _ p, p;
  tps_fit_decomp := λ args, fit_lambda_bd args;
  arm_moved := λ _, true;
  unif_resample := λ _ _, [0; 1];
  get_finger_pts_traj := λ _ lr arg,
    match lr, arg with
    | side_l, _ => left_pts
    | side_r, ee_finger _ _ => FingerPts [square 0; square 0] [square 0; square 0]
    | side_r, full_traj _ _ =>
        FingerPts [square achieved; square achieved] [square achieved; square achieved]
    end;
  get_finger_rel_pts := λ _, square 0;
  dof_inds_from_name := λ _ _, [0; 1; 2; 3]%Z;
  GetJointIndex := λ _ _, 0%Z;
  GetDOFLimits := λ _ _, ([5], [6]);
  get_resampled_traj := λ t _, t;
  OptimizeProblem := λ _ req, Mat 4%nat (default [] (init_info req));
  create_from_full_traj := λ _ full opens closes,
    {| lr2arm_traj := both full.1;
       lr2finger_traj := both full.1;
       lr2ee_traj := both [tt; tt];
       lr2open_finger_traj := opens;
       lr2close_finger_traj := closes |}
|}.

Definition two_squares : finger_pts Q :=
  FingerPts [square 0; square 0] [square 0; square 0].

Definition other_squares : finger_pts Q :=
  FingerPts [square 7; square 8] [square 9; square 10].

Definition plain_factory
    : RegistrationFactory Q unit unit (list (point Q)) :=
  {| rf_class := ["RegistrationFactory"; "object"];
     register := λ _ _, {| reg_f := [] |} |}.

Definition tps_rpm_factory
    : RegistrationFactory Q unit unit (list (point Q)) :=
  {| rf_class := ["TpsRpmRegistrationFactory"; "RegistrationFactory"; "object"];
     register := λ _ _, {| reg_f := [] |} |}.

Definition pose_transferer
    : TrajectoryTransferer Q unit unit unit (list (point Q)) :=
  {| tt_class := ["PoseTrajectoryTransferer"; "TrajectoryTransferer"; "object"];
     tt_sim := {| robot := tt |};
     tt_transfer := λ _ d, aug_traj d |}.

Definition finger_transferer
    : TrajectoryTransferer Q unit unit unit (list (point Q)) :=
  {| tt_class := ["FingerTrajectoryTransferer"; "TrajectoryTransferer"; "object"];
     tt_sim := {| robot := tt |};
     tt_transfer := λ _ d, aug_traj d |}.

Definition strategy : FingerStrategy Q unit unit unit (list (point Q)) := {|
  base := {| registration_factory := tps_rpm_factory;
             trajectory_transferer := finger_transferer |};
  sim := {| robot := tt |};
  alpha := 1;
  beta_pos := 2;
  gamma := 3;
  use_collision_cost := true;
  init_trajectory_transferer := None
|}.

(** A factory whose oracle knows three demonstrations, and one that knows
    none. *)
Definition three_demos : ActionSelection.RegistrationFactory unit :=
  {| ActionSelection.batch_cost := λ _,
       {[ "demo1" := 3 # 2; "demo2" := 1 # 5; "demo3" := 3 # 2 ]}%Q |}.

Definition no_demos : ActionSelection.RegistrationFactory unit :=
  {| ActionSelection.batch_cost := λ _, ∅ |}.

End Example.

(** ** More of registration_transfer.py *)

(** The loop after the first fit of [Decomp.transfer] that regroups the
    warped points four by four:
    [for point in warped_points: finger_points.append(point); if i % 4 == 3:
    target_traj.append(np.array(finger_points)); finger_points = []; i = i+1].
    The state is [(target_traj, i, finger_points)]. *)
Definition group_step {A} (st : list (list A) * nat * list A) (point : A)
    : list (list A) * nat * list A :=
  let '(target_traj, i, finger_points) := st in
  let finger_points := finger_points ++ [point] in
  if decide (i mod 4 = 3)
  then (target_traj ++ [finger_points], i + 1, [])
  else (target_traj, i + 1, finger_points).

Definition target_traj {A} (warped_points : list A) : list (list A) :=
  (foldl group_step ([], 0, []) warped_points).1.1.

(** The ["lambdas"] entry of a contact-following cost. *)
Definition cost_lambdas {R} (c : cost R) : option (list (point R)) :=
  match c with
  | rel_pts_lambdas lambdas _ _ _ _ => Some lambdas
  | _ => None
  end.

(** The ["link"] entry of a contact-following cost. *)
Definition cost_link {R} (c : cost R) : option string :=
  match c with
  | rel_pts_lambdas _ _ link _ _ => Some link
  | _ => None
  end.

(** What one arm adds to [manip_name]: [arm_name + "+" + finger_name]. *)
Definition manip_of_arm (lr : side) : string :=
  match lr with side_l => "leftarm" | side_r => "rightarm" end
  +:+ "+" +:+ side_str lr +:+ "_gripper_l_finger_joint".

(** [if manip_name: manip_name += "+"] and then
    [manip_name += arm_name + "+" + finger_name]. *)
Definition manip_step (name : string) (lr : side) : string :=
  (if decide (name = "") then name else name +:+ "+") +:+ manip_of_arm lr.

(** The strategy with another [init_trajectory_transferer]. *)
Definition with_init_trajectory_transferer {R Hmat SceneState Robot Warp : Type}
    (self : FingerStrategy R Hmat SceneState Robot Warp)
    (t : option (TrajectoryTransferer R Hmat SceneState Robot Warp))
    : FingerStrategy R Hmat SceneState Robot Warp :=
  {| base := base self;
     sim := sim self;
     alpha := alpha self;
     beta_pos := beta_pos self;
     gamma := gamma self;
     use_collision_cost := use_collision_cost self;
     init_trajectory_transferer := t |}.

(** ** UnifiedRegistrationAndTrajectoryTransferer.transfer

    Again the path with [plotting=False]. *)

Section Unified.
Context {R : Type} `{Scalar R}.
Context {Hmat SceneState Robot Warp Fit : Type}.
Context (C : Collaborators R Hmat Robot Warp Fit).

Abbreviation AugTraj := (AugmentedTrajectory R Hmat).
Abbreviation Demo := (Demonstration R Hmat SceneState).
Abbreviation Strategy := (FingerStrategy R Hmat SceneState Robot Warp).

(** [planning.decomp_fit_tps_follow_finger_pts_trajs(robot, manip_name,
    flr2finger_link_names, flr2finger_rel_pts, flr2demo_finger_pts_trajs_rs,
    init_traj, f, use_collision_cost, start_fixed, alpha, beta_pos, gamma)],
    which returns [(test_traj, obj_value, tps_rel_pts_costs, tps_cost)]. *)
Definition Planner : Type :=
  Robot → string → list (side → string) → (side → corners R) → list (finger_pts R) →
  matrix R → Warp → bool → bool → R → R → R → matrix R * R * list R * R.

(** One pass of [for lr in active_lr]; [warm_init_traj] is what the
    [init_trajectory_transferer] transferred, when there is one. *)
Definition Unified_arm_pass (self : Strategy) (reg_f : Warp) (demo_aug_traj_rs : AugTraj)
    (warm_init_traj : option AugTraj) (v : arm_vars) (lr : side) : result arm_vars :=
  let arm_name := match lr with side_l => "leftarm" | side_r => "rightarm" end in
  let finger_name := side_str lr +:+ "_gripper_l_finger_joint" in
  let manip_name := if decide (manip_name v = "") then manip_name v else manip_name v +:+ "+" in
  let manip_name := manip_name +:+ (arm_name +:+ "+" +:+ finger_name) in
  init_traj ←
    match warm_init_traj with
    | Some warm_init_traj =>
        arm_traj ← getitem (lr2arm_traj warm_init_traj) lr;
        finger_traj ← getitem (lr2finger_traj warm_init_traj) lr;
        m ← np_c_ (init_traj v) arm_traj; np_c_ m finger_traj
    | None =>
        arm_traj ← getitem (lr2arm_traj demo_aug_traj_rs) lr;
        finger_traj ← getitem (lr2finger_traj demo_aug_traj_rs) lr;
        m ← np_c_ (init_traj v) arm_traj; np_c_ m finger_traj
    end;
  ee_traj ← getitem (lr2ee_traj demo_aug_traj_rs) lr;
  finger_traj ← getitem (lr2finger_traj demo_aug_traj_rs) lr;
  let flr2demo_finger_pts_traj_rs :=
    get_finger_pts_traj C (robot (sim self)) lr (ee_finger ee_traj finger_traj) in
  _ ← mapM (λ finger_lr,
             pts ← np_concatenate_axis0 (finger flr2demo_finger_pts_traj_rs finger_lr);
             Ok (transform_points C reg_f pts))
           [side_l; side_r];
  Ok {| manip_name := manip_name;
        flr2finger_link_names := flr2finger_link_names v ++ [finger_link_name lr];
        flr2demo_finger_pts_trajs_rs :=
          flr2demo_finger_pts_trajs_rs v ++ [flr2demo_finger_pts_traj_rs];
        init_traj := init_traj;
        flr2finger_link_name := finger_link_name lr;
        flr2finger_rel_pts := get_finger_rel_pts C;
        last_lr := lr |}.

Fixpoint Unified_arm_loop (self : Strategy) (reg_f : Warp) (demo_aug_traj_rs : AugTraj)
    (warm_init_traj : option AugTraj) (v : arm_vars) (active_lr : list side)
    : result arm_vars :=
  match active_lr with
  | [] => Ok v
  | lr :: rest =>
      v' ← Unified_arm_pass self reg_f demo_aug_traj_rs warm_init_traj v lr;
      Unified_arm_loop self reg_f demo_aug_traj_rs warm_init_traj v' rest
  end.

(** The local variables of [Unified.transfer] when it returns. *)
Record unified_locals : Type := UnifiedLocals {
  ul_timesteps_rs : list R;
  ul_demo_aug_traj_rs : AugTraj;
  ul_vars : @arm_vars R;
  ul_init_traj : matrix R;
  ul_f : Warp;
  ul_test_traj : matrix R;
  ul_test_aug_traj : AugTraj
}.

Definition Unified_transfer_locals (plan : Planner) (self : Strategy) (demo : Demo)
    (test_scene_state : SceneState) : result unified_locals :=
  let reg := register (registration_factory (base self)) demo test_scene_state in
  let active_lr := active_arms C (aug_traj demo) in
  key ← resample_key C (aug_traj demo) active_lr;
  let timesteps_rs := unif_resample C key (lit 1) in
  let demo_aug_traj_rs := get_resampled_traj C (aug_traj demo) timesteps_rs in
  let warm_init_traj :=
    match init_trajectory_transferer self with
    | Some t => Some (tt_transfer t reg demo)
    | None => None
    end in
  v ← Unified_arm_loop self (reg_f reg) demo_aug_traj_rs warm_init_traj
         (ArmVars "" [] [] (np_zeros_n_0 (length timesteps_rs))
                  (finger_link_name side_r) (get_finger_rel_pts C) side_r)
         active_lr;
  init_traj ←
    (if bool_decide (is_Some (init_trajectory_transferer self)) then Ok (init_traj v)
     else
       let dof_inds := dof_inds_from_name C (robot (sim self)) (manip_name v) in
       let joint_ind :=
         GetJointIndex C (robot (sim self)) (side_str (last_lr v) +:+ "_shoulder_lift_joint") in
       limit ← match (GetDOFLimits C (robot (sim self)) [joint_ind]).1 with
               | [] => Raise IndexError
               | lower :: _ => Ok lower
               end;
       j ← list_index joint_ind dof_inds;
       set_column (init_traj v) j limit);
  let '(test_traj, obj_value, tps_rel_pts_costs, tps_cost) :=
    plan (robot (sim self)) (manip_name v) (flr2finger_link_names v)
         (flr2finger_rel_pts v) (flr2demo_finger_pts_trajs_rs v) init_traj (reg_f reg)
         (use_collision_cost self) false (alpha self) (beta_pos self) (gamma self) in
  let full := (test_traj, dof_inds_from_name C (robot (sim self)) (manip_name v)) in
  let test_aug_traj :=
    create_from_full_traj C (robot (sim self)) full
      (lr2open_finger_traj demo_aug_traj_rs) (lr2close_finger_traj demo_aug_traj_rs) in
  Ok (UnifiedLocals timesteps_rs demo_aug_traj_rs v init_traj (reg_f reg) test_traj
                    test_aug_traj).

(** [UnifiedRegistrationAndTrajectoryTransferer.transfer]: it ends with
    [return test_aug_traj]. *)
Definition Unified_transfer (plan : Planner) (self : Strategy) (demo : Demo)
    (test_scene_state : SceneState) : result AugTraj :=
  locals ← Unified_transfer_locals plan self demo test_scene_state;
  Ok (ul_test_aug_traj locals).

End Unified.

(** Collaborators with another test of whether an arm moved, another
    contact-point extractor and other dof indices. *)
Definition with_kinematics {R Hmat Robot Warp Fit : Type}
    (C : Collaborators R Hmat Robot Warp Fit)
    (moved : matrix R → bool)
    (g : Robot → side → traj_arg R Hmat → finger_pts R)
    (dofs : Robot → string → list Z)
    : Collaborators R Hmat Robot Warp Fit := {|
  JOINT_LENGTH_PER_STEP := JOINT_LENGTH_PER_STEP C;
  FINGER_CLOSE_RATE := FINGER_CLOSE_RATE C;
  x_na := x_na C;
  y_ng := y_ng C;
  bend_coef := bend_coef C;
  rot_coef := rot_coef C;
  wt_n := wt_n C;
  update := update C;
  transform_point := transform_point C;
  tps_fit_decomp := tps_fit_decomp C;
  arm_moved := moved;
  unif_resample := unif_resample C;
  get_finger_pts_traj := g;
  get_finger_rel_pts := get_finger_rel_pts C;
  dof_inds_from_name := dofs;
  GetJointIndex := GetJointIndex C;
  GetDOFLimits := GetDOFLimits C;
  get_resampled_traj := get_resampled_traj C;
  OptimizeProblem := OptimizeProblem C;
  create_from_full_traj := create_from_full_traj C
|}.

(** ** More concrete worlds *)

Module Example2.
Import Example.
Local Open Scope Q_scope.

(** A demonstration of the left arm only. *)
Definition left_only {A} (x : A) : lrdict A :=
  λ lr, match lr with side_l => Some x | side_r => None end.

Definition left_demo : Demonstration Q unit unit :=
  {| scene_state := tt;
     aug_traj := {| lr2arm_traj := left_only (column 0 1);
                    lr2finger_traj := left_only (column 0 1);
                    lr2ee_traj := left_only [tt; tt];
                    lr2open_finger_traj := left_only [false; true];
                    lr2close_finger_traj := left_only [true; false] |} |}.

(** The world in which only the left arm moved (its joints are the column
    [0, 1]; the right arm's joints stay at 0). *)
Definition still_right_traj : AugmentedTrajectory Q unit := {|
  lr2arm_traj := λ lr, match lr with
                       | side_l => Some (column 0 1)
                       | side_r => Some (column 0 0)
                       end;
  lr2finger_traj := both (column 0 1);
  lr2ee_traj := both [tt; tt];
  lr2open_finger_traj := both [false; true];
  lr2close_finger_traj := both [true; false]
|}.

Definition still_right_demo : Demonstration Q unit unit :=
  {| scene_state := tt; aug_traj := still_right_traj |}.

Definition moved_if_changes (m : matrix Q) : bool :=
  match mrows m with
  | [[a]; [b]] => negb (Qeq_bool a b)
  | _ => true
  end.

Definition dofs_of_manip (name : string) : list Z :=
  if decide (name = "leftarm+l_gripper_l_finger_joint") then [0; 1]%Z
  else [0; 1; 2; 3]%Z.

Definition left_moves_world : Collaborators Q unit unit (list (point Q)) (list (point Q)) :=
  with_kinematics (world 1 two_squares) moved_if_changes
    (get_finger_pts_traj (world 1 two_squares))
    (λ _ name, dofs_of_manip name).

(** The world in which no arm moved. *)
Definition still_world : Collaborators Q unit unit (list (point Q)) (list (point Q)) :=
  with_kinematics (world 1 two_squares) (λ _, false)
    (get_finger_pts_traj (world 1 two_squares))
    (dof_inds_from_name (world 1 two_squares)).


(** A planner that returns its initial guess. *)
Definition echo_planner
    : Planner (R:=Q) (Robot:=unit) (Warp:=list (point Q)) :=
  λ _ _ _ _ _ init_traj _ _ _ _ _ _, (init_traj, 0, [], 0).

(** A warm start whose joints are all 9. *)
Definition warm_transferer
    : TrajectoryTransferer Q unit unit unit (list (point Q)) :=
  {| tt_class := ["FingerTrajectoryTransferer"; "TrajectoryTransferer"; "object"];
     tt_sim := {| robot := tt |};
     tt_transfer := λ _ _, {| lr2arm_traj := both (column 9 9);
                              lr2finger_traj := both (column 9 9);
                              lr2ee_traj := both [tt; tt];
                              lr2open_finger_traj := both [];
                              lr2close_finger_traj := both [] |} |}.

Definition other_warm_transferer
    : TrajectoryTransferer Q unit unit unit (list (point Q)) :=
  {| tt_class := ["FingerTrajectoryTransferer"; "TrajectoryTransferer"; "object"];
     tt_sim := {| robot := tt |};
     tt_transfer := λ _ d, aug_traj d |}.

Definition warm_strategy : FingerStrategy Q unit unit unit (list (point Q)) :=
  with_init_trajectory_transferer strategy (Some warm_transferer).



End Example2.

(** * Properties *)

(** ** The error monad *)

Lemma bind_Ok_inv {A B} (m : result A) (f : A → result B) (b : B) :
  m ≫= f = Ok b → ∃ a, m = Ok a ∧ f a = Ok b.
Proof. destruct m as [a|e]; simpl; [eauto | discriminate]. Qed.

Lemma fmap_Ok_inv {A B} (f : A → B) (m : result A) (b : B) :
  f <$> m = Ok b → ∃ a, m = Ok a ∧ b = f a.
Proof. destruct m as [a|e]; simpl; [intros [= <-]; eauto | discriminate]. Qed.

Lemma py_assert_Ok_inv b u : py_assert b = Ok u → b = true.
Proof. destruct b; [done | discriminate]. Qed.

Lemma mapM_Ok_length {A B} (f : A → result B) (xs : list A) (ys : list B) :
  mapM f xs = Ok ys → length ys = length xs.
Proof.
  revert ys. induction xs as [|x xs IH]; intros ys; simpl.
  - by intros [= <-].
  - intros Hm. apply bind_Ok_inv in Hm as (y & _ & Hm).
    apply bind_Ok_inv in Hm as (ys' & Hys & [= <-]).
    simpl. f_equal. by apply IH.
Qed.

Lemma mapM_Ok_lookup {A B} (f : A → result B) (xs : list A) (ys : list B) i x :
  mapM f xs = Ok ys → xs !! i = Some x → ∃ y, f x = Ok y ∧ ys !! i = Some y.
Proof.
  revert ys i. induction xs as [|x0 xs IH]; intros ys i; simpl; [done|].
  intros Hm Hi. apply bind_Ok_inv in Hm as (y & Hy & Hm).
  apply bind_Ok_inv in Hm as (ys' & Hys & [= <-]).
  destruct i as [|i]; simpl in *.
  - injection Hi as ->. eauto.
  - by apply IH.
Qed.

(** Two computations that are the same up to unfolding have the same
    result: from [H1 : m = Ok a] and [H2 : m' = Ok b], replaces [b] by [a]. *)
Ltac same_result H1 H2 :=
  lazymatch type of H1 with
  | _ = Ok ?a =>
      lazymatch type of H2 with
      | _ = Ok ?b =>
          assert (b = a) as ->
            by (cut (Ok b = Ok a);
                [by intros [= ->] | rewrite <- H1, <- H2; reflexivity])
      end
  end.

(** Inverts a hypothesis [m ≫= f = Ok b], naming the intermediate value. *)
Ltac inv_bind H :=
  let a := fresh "a" in
  let Ha := fresh "Ha" in
  apply bind_Ok_inv in H as (a & Ha & H).

(** ** Greedy action selection *)

Section GreedyFacts.
Import ActionSelection.
Context {SceneState : Type}.

Lemma tuple_le_cost x y : tuple_le x y → (x.1 <= y.1)%Q.
Proof.
  unfold tuple_le, tuple_leb. destruct (x.1 ?= y.1)%Q eqn:Hc; [| |done]; intros _.
  - apply Qeq_alt in Hc. rewrite Hc. apply Qle_refl.
  - apply Qlt_alt in Hc. by apply Qlt_le_weak.
Qed.

Global Instance tuple_le_total : Total tuple_le.
Proof.
  intros x y. unfold tuple_le, tuple_leb.
  rewrite <- (Qcompare_antisym x.1 y.1).
  destruct (x.1 ?= y.1)%Q; simpl; auto using String.leb_total.
Qed.

Lemma sorted_Permutation rows : sorted rows ≡ₚ rows.
Proof. apply merge_sort_Permutation. Qed.

Lemma sorted_costs rows : Sorted Qle (sorted rows).*1.
Proof.
  apply (Sorted_fmap _ tuple_le); [apply tuple_le_cost|].
  apply (Sorted_merge_sort tuple_le).
Qed.

Lemma zip_star_nonempty rows :
  rows ≠ [] → unpack2 (zip_star rows) = Ok (inl rows.*1, inr rows.*2).
Proof. by destruct rows. Qed.

(** C7: when the oracle's mapping is not empty, [plan_agenda] returns the
    actions and their costs: the agenda is a permutation of all candidate
    actions, the costs are in non-decreasing order, and the cost at each
    position is the oracle's cost of the action at that position. *)
Theorem Greedy_plan_agenda_ranks_all_actions
    (registration_factory : RegistrationFactory SceneState) (scene_state : SceneState) :
  batch_cost registration_factory scene_state ≠ ∅ →
  ∃ agenda q_values,
    plan_agenda registration_factory scene_state = Ok (inr agenda, inl q_values) ∧
    agenda ≡ₚ (map_to_list (batch_cost registration_factory scene_state)).*1 ∧
    length q_values = length agenda ∧
    Sorted Qle q_values ∧
    ∀ i action, agenda !! i = Some action →
      batch_cost registration_factory scene_state !! action = q_values !! i.
Proof.
  intros Hne. set (m := batch_cost registration_factory scene_state) in *.
  set (rows := (λ '(action, q_value), (q_value, action)) <$> map_to_list m).
  assert (Hrows : sorted rows ≠ []).
  { intros Hnil. pose proof (sorted_Permutation rows) as Hp.
    rewrite Hnil in Hp. symmetry in Hp. apply Permutation_nil_r in Hp.
    apply fmap_nil_inv in Hp. by apply map_to_list_empty_iff in Hp. }
  exists (sorted rows).*2, (sorted rows).*1. split; [|split; [|split; [|split]]].
  - unfold plan_agenda. fold m. fold rows. by rewrite zip_star_nonempty.
  - rewrite (sorted_Permutation rows). unfold rows.
    rewrite <- list_fmap_compose.
    erewrite list_fmap_ext; [reflexivity|]. by intros i [action q_value].
  - by rewrite !length_fmap.
  - apply sorted_costs.
  - intros i action Hi. rewrite list_lookup_fmap in Hi. rewrite list_lookup_fmap.
    destruct (sorted rows !! i) as [[q_value action']|] eqn:Hrow; [|done].
    simpl in Hi. injection Hi as ->. simpl.
    apply elem_of_map_to_list.
    apply list_elem_of_lookup_2 in Hrow. rewrite (sorted_Permutation rows) in Hrow.
    apply list_elem_of_fmap in Hrow as ([a q] & [= -> ->] & Hin). done.
Qed.

End GreedyFacts.

Lemma Greedy_plan_agenda_ranks_all_actions_witness :
  ActionSelection.batch_cost Example.three_demos tt ≠ ∅ ∧
  ∃ agenda q_values,
    ActionSelection.plan_agenda Example.three_demos tt = Ok (inr agenda, inl q_values) ∧
    agenda ≡ₚ (map_to_list (ActionSelection.batch_cost Example.three_demos tt)).*1 ∧
    length q_values = length agenda ∧
    Sorted Qle q_values ∧
    ∀ i action, agenda !! i = Some action →
      ActionSelection.batch_cost Example.three_demos tt !! action = q_values !! i.
Proof.
  assert (Hne : ActionSelection.batch_cost Example.three_demos tt ≠ ∅).
  { simpl. apply insert_non_empty. }
  split; [exact Hne|].
  exact (Greedy_plan_agenda_ranks_all_actions Example.three_demos tt Hne).
Defined.

Example Greedy_plan_agenda_three_demos :
  ActionSelection.plan_agenda Example.three_demos tt
  = Ok (inr ["demo2"; "demo1"; "demo3"], inl [1 # 5; 3 # 2; 3 # 2]%Q).
Proof. vm_compute. reflexivity. Qed.

(** C8: with no candidate actions the unpacking of [zip]'s empty result
    fails, and [plan_agenda] raises [ValueError]. *)
Lemma Greedy_plan_agenda_no_actions_raises :
  ActionSelection.batch_cost Example.no_demos tt = ∅ ∧
  ActionSelection.plan_agenda Example.no_demos tt = Raise ValueError.
Proof. split; reflexivity. Qed.

(** ** The constructors *)

Section ConstructorFacts.
Context {R : Type} `{Scalar R}.
Context {Hmat SceneState Robot Warp : Type}.

Lemma finger_strategy_init_returns name
    (rf : RegistrationFactory R Hmat SceneState Warp)
    (tt : TrajectoryTransferer R Hmat SceneState Robot Warp)
    (alpha beta_pos gamma : R) (use_collision_cost : bool)
    (init_tt : option (TrajectoryTransferer R Hmat SceneState Robot Warp)) :
  returns (finger_strategy_init name rf tt alpha beta_pos gamma use_collision_cost init_tt)
  ↔ isinstance (rf_class rf) "TpsRpmRegistrationFactory"
    && isinstance (tt_class tt) "FingerTrajectoryTransferer" = true.
Proof.
  unfold finger_strategy_init, returns. simpl.
  destruct (isinstance (rf_class rf) _), (isinstance (tt_class tt) _); simpl;
    split; try done; try (intros [? [=]]); eauto.
Qed.

Lemma finger_strategy_init_raises name
    (rf : RegistrationFactory R Hmat SceneState Warp)
    (tt : TrajectoryTransferer R Hmat SceneState Robot Warp)
    (alpha beta_pos gamma : R) (use_collision_cost : bool)
    (init_tt : option (TrajectoryTransferer R Hmat SceneState Robot Warp)) :
  (∃ msg, finger_strategy_init name rf tt alpha beta_pos gamma use_collision_cost init_tt
          = Raise (NotImplementedError msg))
  ↔ isinstance (rf_class rf) "TpsRpmRegistrationFactory"
    && isinstance (tt_class tt) "FingerTrajectoryTransferer" = false.
Proof.
  unfold finger_strategy_init. simpl.
  destruct (isinstance (rf_class rf) _), (isinstance (tt_class tt) _); simpl;
    split; try done; try (intros [? [=]]); eauto.
Qed.

(** C6, amended: the Unified and the Decomp strategies refuse, at
    construction and with [NotImplementedError], a registration factory
    that is not a [TpsRpmRegistrationFactory] or a trajectory transferer
    that is not a [FingerTrajectoryTransferer], and accept every other
    pair; the TwoStep strategy has the constructor of the base class,
    which accepts every pair. *)
Theorem constructors_type_checks
    (rf : RegistrationFactory R Hmat SceneState Warp)
    (tt : TrajectoryTransferer R Hmat SceneState Robot Warp)
    (alpha beta_pos gamma : R) (use_collision_cost : bool)
    (init_tt : option (TrajectoryTransferer R Hmat SceneState Robot Warp)) :
  let compatible :=
    isinstance (rf_class rf) "TpsRpmRegistrationFactory"
    && isinstance (tt_class tt) "FingerTrajectoryTransferer" in
  returns (TwoStep_init rf tt) ∧
  (returns (Unified_init rf tt alpha beta_pos gamma use_collision_cost init_tt)
     ↔ compatible = true) ∧
  (returns (Decomp_init rf tt alpha beta_pos gamma use_collision_cost init_tt)
     ↔ compatible = true) ∧
  ((∃ msg, Unified_init rf tt alpha beta_pos gamma use_collision_cost init_tt
           = Raise (NotImplementedError msg)) ↔ compatible = false) ∧
  ((∃ msg, Decomp_init rf tt alpha beta_pos gamma use_collision_cost init_tt
           = Raise (NotImplementedError msg)) ↔ compatible = false).
Proof.
  intros compatible. split; [by eexists|].
  unfold Unified_init, Decomp_init.
  repeat split; first
    [ by apply finger_strategy_init_returns
    | by apply finger_strategy_init_raises ].
Qed.

End ConstructorFacts.

(** C6 as stated fails for TwoStep: a factory that is not a
    [TpsRpmRegistrationFactory] and a transferer that is not a
    [FingerTrajectoryTransferer], which Unified refuses, are accepted by
    the TwoStep constructor. *)
Lemma TwoStep_init_accepts_what_Unified_refuses :
  Unified_init Example.plain_factory Example.pose_transferer 1%Q 1%Q 1%Q true None
  = Raise (NotImplementedError
      "UnifiedRegistrationAndTrajectoryTransferer only supports TpsRpmRegistrationFactory") ∧
  TwoStep_init Example.plain_factory Example.pose_transferer
  = Ok {| registration_factory := Example.plain_factory;
          trajectory_transferer := Example.pose_transferer |}.
Proof. split; reflexivity. Qed.

(** ** Arrays *)

Section ArrayFacts.
Context {R : Type} `{Scalar R}.

Lemma length_concat_corner_rows (cs : list (corners R)) :
  length (concat (corner_rows <$> cs)) = 4 * length cs.
Proof.
  induction cs as [|c cs IH]; [done|].
  rewrite fmap_cons. cbn [concat corner_rows app length]. rewrite IH. lia.
Qed.

Lemma np_sub_same_length (a b d : list (point R)) :
  length a = length b → np_sub a b = Ok d →
  d = zip_with (pzip rsub) a b ∧ length d = length a.
Proof.
  intros Hlen. unfold np_sub. rewrite decide_True by done. intros [= <-].
  split; [done|]. rewrite length_zip_with. lia.
Qed.

(** Neither array being a single row, nothing is broadcast. *)
Lemma np_sub_no_broadcast (a b d : list (point R)) :
  2 ≤ length a → 2 ≤ length b → np_sub a b = Ok d →
  length a = length b ∧ d = zip_with (pzip rsub) a b ∧ length d = length a.
Proof.
  intros Ha Hb. unfold np_sub. destruct (decide (length a = length b)) as [Hlen|Hne].
  - intros [= <-]. split; [done|]. split; [done|]. rewrite length_zip_with. lia.
  - destruct a as [|x [|x' a]], b as [|y [|y' b]]; simpl in *; try lia; discriminate.
Qed.

Lemma foldl_running_row (acc : point R) (rows : list (point R)) :
  foldl running_add (RRow acc) rows
  = RRow (Pt (foldl radd (px acc) (px <$> rows))
             (foldl radd (py acc) (py <$> rows))
             (foldl radd (pz acc) (pz <$> rows))).
Proof.
  revert acc. induction rows as [|p rows IH]; intros acc; simpl.
  - by destruct acc.
  - by rewrite IH.
Qed.

(** [sum(sum(abs(d)))] is the sum of the spec's words, when [d] has a row. *)
Lemma sum_sum_abs (d : list (point R)) :
  d ≠ [] → sum_sum (np_abs d) = Ok (abs_sum d).
Proof.
  destruct d as [|p d]; [done|]. intros _.
  unfold sum_sum, sum_rows, np_abs, abs_sum. simpl.
  rewrite foldl_running_row. simpl.
  by rewrite <- !list_fmap_compose.
Qed.

Lemma length_np_zeros_like (a : list (point R)) : length (np_zeros_like a) = length a.
Proof. unfold np_zeros_like. by rewrite length_fmap. Qed.

Lemma length_set_column0 (a : list (point R)) v : length (set_column0 a v) = length a.
Proof. unfold set_column0. by rewrite length_fmap. Qed.

Lemma length_np_scale c (a : list (point R)) : length (np_scale c a) = length a.
Proof. unfold np_scale. by rewrite length_fmap. Qed.

(** The initial duals: [.001] in the first column and zero elsewhere. *)
Lemma initial_lambda_rows (tau_bd : list (point R)) :
  set_column0 (np_zeros_like tau_bd) (lit 0.001)
  = (λ _, Pt (lit 0.001) (lit 0) (lit 0)) <$> tau_bd.
Proof.
  unfold set_column0, np_zeros_like. rewrite <- list_fmap_compose.
  by apply list_fmap_ext.
Qed.

End ArrayFacts.

(** ** The alternating loop *)

Section DecompFacts.
Context {R : Type} `{Scalar R}.
Context {Hmat SceneState Robot Warp Fit : Type}.
Context (C : Collaborators R Hmat Robot Warp Fit).

Abbreviation Strategy := (FingerStrategy R Hmat SceneState Robot Warp).
Abbreviation Demo := (Demonstration R Hmat SceneState).

Lemma points_to_array_Ok (flr : finger_pts R) (a : list (point R)) :
  points_to_array flr = Ok a →
  a = concat (corner_rows <$> (fl flr ++ fr flr)) ∧
  length a = 4 * (length (fl flr) + length (fr flr)) ∧
  8 ≤ length a.
Proof.
  unfold points_to_array.
  destruct (fl flr) as [|cl pl] eqn:Hl, (fr flr) as [|cr pr] eqn:Hr; try discriminate.
  intros Heq.
  assert (a = concat (corner_rows <$> ((cl :: pl) ++ cr :: pr))) as -> by congruence.
  split; [done|].
  rewrite length_concat_corner_rows, length_app. simpl. lia.
Qed.

Lemma length_transform_points f (pts : list (point R)) :
  length (transform_points C f pts) = length pts.
Proof. unfold transform_points. by rewrite length_fmap. Qed.

(** What a successful iteration did, step by step. *)
Lemma iteration_Ok_inv (self : Strategy) k s s' log :
  iteration C self k s = Ok (s', log) →
  let v := lc_vars k in
  let robot := robot (sim self) in
  let traj_dim := length (lv_lambda_bd s) / 2 in
  ∃ lambda_costs,
    mapM (lambda_cost self v (n_steps (lc_request k)) (lc_start_fixed k)
                      (lv_lambda_bd s) traj_dim)
         (range4 (traj_dim * 2)) = Ok lambda_costs ∧
    it_lambda_bd log = lv_lambda_bd s ∧
    it_request log =
      Request (n_steps (lc_request k)) (manip (lc_request k)) (start_fixed (lc_request k))
              (costs (lc_request k) ++ omap id lambda_costs)
              (constraints (lc_request k)) (Some (mrows (lv_cur_traj s))) ∧
    it_cur_traj log = OptimizeProblem C robot (it_request log) ∧
    it_fit_args log =
      FitArgs (lc_x_na k) (lc_y_ng k) (lc_bend_coefs k) (lc_rot_coefs k)
              (Some (lc_wt_n k)) (lc_tau_bd k) (np_neg (lv_lambda_bd s)) ∧
    it_f log = update C (lv_f s) (lc_x_na k) (lc_y_ng k) (lc_bend_coefs k)
                      (lc_rot_coefs k) (Some (lc_wt_n k))
                      (tps_fit_decomp C (it_fit_args log)) ∧
    it_trajpts_tps log = transform_points C (it_f log) (lc_tau_bd k) ∧
    points_to_array
      (get_finger_pts_traj C robot side_r
         (full_traj (it_cur_traj log) (dof_inds_from_name C robot (manip_name v))))
      = Ok (it_trajpts_traj log) ∧
    np_sub (it_trajpts_traj log) (it_trajpts_tps log) = Ok (it_traj_diff log) ∧
    sum_sum (np_abs (it_traj_diff log)) = Ok (it_abs_traj_diff log) ∧
    np_sub (lv_lambda_bd s) (np_scale (lc_nu k) (it_traj_diff log))
      = Ok (it_lambda_bd' log) ∧
    it_converged log = rltb (it_abs_traj_diff log) (lc_traj_diff_thresh k) ∧
    s' = LoopVars (it_f log) (it_cur_traj log) (it_lambda_bd' log).
Proof.
  unfold iteration. intros Hit.
  inv_bind Hit. inv_bind Hit. inv_bind Hit. inv_bind Hit. inv_bind Hit.
  inv_bind Hit. inv_bind Hit.
  injection Hit as <- <-. simpl. eexists. repeat split; eauto.
Qed.

(** The loop runs the iterations one after the other, at most [max_iter]
    of them, and stops before the cap exactly after the first iteration
    that converged. *)
Lemma loop_Ok_inv (self : Strategy) k n s s' logs :
  loop C self k n s = Ok (s', logs) →
  trace C self k s logs s' ∧
  length logs ≤ n ∧
  (0 < n → 0 < length logs) ∧
  (∀ i log, logs !! i = Some log → S i < length logs → it_converged log = false) ∧
  (length logs < n → ∃ log, last logs = Some log ∧ it_converged log = true).
Proof.
  revert s s' logs. induction n as [|n IH]; intros s s' logs; simpl.
  - intros [= <- <-]. split_and!; simpl.
    + constructor.
    + lia.
    + lia.
    + done.
    + lia.
  - intros Hl. apply bind_Ok_inv in Hl as ([s1 log] & Hit & Hl).
    destruct (it_converged log) eqn:Hconv.
    + injection Hl as <- <-. split_and!; simpl.
      * econstructor; [done | constructor].
      * lia.
      * lia.
      * intros i log' _ Hi. lia.
      * eauto.
    + apply bind_Ok_inv in Hl as ([s2 logs'] & Hloop & [= <- <-]).
      destruct (IH _ _ _ Hloop) as (Htr & Hlen & Hpos & Hnot & Hlast).
      split_and!; simpl.
      * by econstructor.
      * lia.
      * lia.
      * intros [|i] log' Hi Hlt; simpl in *.
        -- by injection Hi as <-.
        -- apply (Hnot i); [done | lia].
      * intros Hlt. destruct Hlast as (log' & Hl' & Hc'); [lia|].
        exists log'. split; [|done]. by destruct logs'.
Qed.


Lemma trace_lookup (self : Strategy) k s logs s' i log :
  trace C self k s logs s' → logs !! i = Some log →
  ∃ si si', iteration C self k si = Ok (si', log) ∧
            (i = 0 → si = s) ∧
            (∀ prev, logs !! (i - 1) = Some prev → 0 < i →
               lv_lambda_bd si = it_lambda_bd' prev) ∧
            default (lv_lambda_bd s') (it_lambda_bd <$> logs !! S i) = it_lambda_bd' log.
Proof.
  intros Htr. revert i. induction Htr as [s|s s1 s' log0 logs Hit Htr IH]; intros i; [done|].
  destruct i as [|i]; simpl.
  - intros [= ->]. exists s, s1. split; [done|]. split; [done|]. split; [intros; lia|].
    apply iteration_Ok_inv in Hit as (? & _ & _ & _ & _ & _ & _ & _ & _ & _ & _ & _ & _ & ->).
    inversion Htr as [|? ? ? log1 ? Hit1]; subst; simpl; [done|].
    by apply iteration_Ok_inv in Hit1 as (? & _ & -> & _).
  - intros Hi. destruct (IH _ Hi) as (si & si' & Hsi & H0 & Hprev & Hnext).
    exists si, si'. split; [done|]. split; [done|]. split; [|done].
    intros prev Hp _. rewrite Nat.sub_0_r in Hp. destruct i as [|i]; simpl in *.
    + injection Hp as <-. rewrite H0 by done.
      by apply iteration_Ok_inv in Hit as (? & _ & _ & _ & _ & _ & _ & _ & _ & _ & _ & _ & _ & ->).
    + apply Hprev; [|lia]. by rewrite Nat.sub_0_r.
Qed.

(** The arithmetic of one iteration, when the duals have the shape of the
    demonstration points and no array is a single row. *)
Lemma iteration_arith (self : Strategy) k s s' log :
  iteration C self k s = Ok (s', log) →
  length (lv_lambda_bd s) = length (lc_tau_bd k) →
  2 ≤ length (lc_tau_bd k) →
  length (it_trajpts_traj log) = length (it_trajpts_tps log) ∧
  it_traj_diff log = zip_with (pzip rsub) (it_trajpts_traj log) (it_trajpts_tps log) ∧
  it_abs_traj_diff log = abs_sum (it_traj_diff log) ∧
  length (it_lambda_bd log) = length (it_traj_diff log) ∧
  it_lambda_bd' log
    = zip_with (pzip rsub) (it_lambda_bd log) (np_scale (lc_nu k) (it_traj_diff log)) ∧
  length (lv_lambda_bd s') = length (lc_tau_bd k).
Proof.
  intros Hit Hlam Htau.
  apply iteration_Ok_inv in Hit
    as (cs & _ & Hl & _ & _ & _ & _ & Htps & Hpts & Hdiff & Habs & Hupd & _ & ->).
  apply points_to_array_Ok in Hpts as (_ & _ & Hpts).
  assert (Hlen_tps : length (it_trajpts_tps log) = length (lc_tau_bd k))
    by (by rewrite Htps, length_transform_points).
  apply np_sub_no_broadcast in Hdiff as (Hlen & Hzip & Hlen_diff); [|lia..].
  rewrite sum_sum_abs in Habs
    by (intros Hnil; rewrite Hnil in Hlen_diff; simpl in Hlen_diff; lia).
  injection Habs as Habs.
  apply np_sub_same_length in Hupd as (Hupd & Hlen_upd);
    [|rewrite length_np_scale; lia].
  simpl. rewrite Hl. split_and!; try done; lia.
Qed.

Lemma trace_arith (self : Strategy) k s logs s' :
  trace C self k s logs s' →
  length (lv_lambda_bd s) = length (lc_tau_bd k) →
  2 ≤ length (lc_tau_bd k) →
  ∀ i log, logs !! i = Some log →
    length (it_trajpts_traj log) = length (it_trajpts_tps log) ∧
    it_traj_diff log = zip_with (pzip rsub) (it_trajpts_traj log) (it_trajpts_tps log) ∧
    it_abs_traj_diff log = abs_sum (it_traj_diff log) ∧
    length (it_lambda_bd log) = length (it_traj_diff log) ∧
    it_lambda_bd' log
      = zip_with (pzip rsub) (it_lambda_bd log) (np_scale (lc_nu k) (it_traj_diff log)).
Proof.
  intros Htr Hlam Htau.
  induction Htr as [s|s s1 s' log0 logs Hit Htr IH]; intros i log; [done|].
  destruct (iteration_arith _ _ _ _ _ Hit Hlam Htau) as (? & ? & ? & ? & ? & Hlam1).
  destruct i as [|i]; simpl.
  - intros [= <-]. done.
  - by apply IH.
Qed.

Lemma base_request_Ok_inv (self : Strategy) n name fixed req :
  base_request self n name fixed = Ok req →
  ∃ coeff, py_div (gamma self) (Z.of_nat n - 1) = Ok coeff ∧
    req = Request n name fixed
            (joint_vel [coeff]
               :: (if use_collision_cost self
                   then [collision true [of_int 1000] [lit 0.025]] else []))
            [] None.
Proof.
  unfold base_request. intros Hreq. inv_bind Hreq. injection Hreq as <-.
  eexists. split; [done|]. by destruct (use_collision_cost self).
Qed.

(** What a successful run of [transfer] assigned to its local variables. *)
Lemma Decomp_transfer_locals_inv (self : Strategy) (demo : Demo) scene r :
  Decomp_transfer_locals C self demo scene = Ok r →
  let f0 := reg_f (register (registration_factory (base self)) demo scene) in
  let robot := robot (sim self) in
  ∃ k s0 s' pts key n,
    traj_to_points C self (aug_traj demo) true = Ok pts ∧
    points_to_array pts = Ok (tl_tau_bd r) ∧
    tl_lambda_init r = set_column0 (np_zeros_like (tl_tau_bd r)) (lit 0.001) ∧
    tl_init_fit_args r
      = FitArgs (x_na C f0) (y_ng C f0) (expand_coef (bend_coef C f0))
                (expand_coef (rot_coef C f0)) (wt_n C f0)
                (tl_tau_bd r) (tl_lambda_init r) ∧
    resample_key C (aug_traj demo) (active_arms C (aug_traj demo)) = Ok key ∧
    tl_demo_aug_traj_rs r
      = get_resampled_traj C (aug_traj demo) (unif_resample C key (lit 1)) ∧
    base_request self n (manip_name (tl_vars r)) false = Ok (tl_request r) ∧
    lc_vars k = tl_vars r ∧
    lc_request k = tl_request r ∧
    lc_start_fixed k = false ∧
    lc_tau_bd k = tl_tau_bd r ∧
    lc_nu k = lit 0.001 ∧
    lc_traj_diff_thresh k = rmul (lit 1e-2) (of_int (np_size (tl_lambda_init r))) ∧
    lv_lambda_bd s0 = tl_lambda_init r ∧
    loop C self k max_iter s0 = Ok (s', tl_iterations r) ∧
    tl_cur_traj r = lv_cur_traj s' ∧
    tl_lambda_bd r = lv_lambda_bd s' ∧
    tl_test_aug_traj r
      = create_from_full_traj C robot
          (tl_cur_traj r, dof_inds_from_name C robot (manip_name (tl_vars r)))
          (lr2open_finger_traj (tl_demo_aug_traj_rs r))
          (lr2close_finger_traj (tl_demo_aug_traj_rs r)).
Proof.
  unfold Decomp_transfer_locals. intros Hr. cbv zeta in Hr.
  apply bind_Ok_inv in Hr as (pts & Hpts & Hr).
  apply bind_Ok_inv in Hr as (tau_bd & Htau & Hr).
  apply bind_Ok_inv in Hr as (key & Hkey & Hr).
  apply bind_Ok_inv in Hr as (v & Hv & Hr).
  apply bind_Ok_inv in Hr as (init_traj & Hinit & Hr).
  apply bind_Ok_inv in Hr as (? & _ & Hr).
  apply bind_Ok_inv in Hr as (? & _ & Hr).
  apply bind_Ok_inv in Hr as (? & _ & Hr).
  apply bind_Ok_inv in Hr as (req & Hreq & Hr).
  apply bind_Ok_inv in Hr as ([s' logs] & Hloop & Hr).
  injection Hr as <-. simpl.
  lazymatch type of Hloop with
  | loop _ _ ?k _ ?s0 = _ => exists k, s0, s', pts, key, (length (mrows init_traj))
  end.
  split_and!; done.
Qed.

End DecompFacts.

(** ** The decomposed transfer *)

Section TransferFacts.
Context {R : Type} `{Scalar R}.
Context {Hmat SceneState Robot Warp Fit : Type}.
Context (C : Collaborators R Hmat Robot Warp Fit).

Abbreviation Strategy := (FingerStrategy R Hmat SceneState Robot Warp).
Abbreviation Demo := (Demonstration R Hmat SceneState).

(** The facts about the [i]-th iteration of a successful run that the
    theorems below start from. *)
Lemma transfer_iteration (self : Strategy) (demo : Demo) scene r i log :
  Decomp_transfer_locals C self demo scene = Ok r →
  tl_iterations r !! i = Some log →
  ∃ k si si',
    iteration C self k si = Ok (si', log) ∧
    lc_vars k = tl_vars r ∧
    lc_request k = tl_request r ∧
    lc_start_fixed k = false ∧
    lc_tau_bd k = tl_tau_bd r ∧
    lc_nu k = lit 0.001 ∧
    lc_traj_diff_thresh k = rmul (lit 1e-2) (of_int (np_size (tl_lambda_init r))) ∧
    (i = 0 → lv_lambda_bd si = tl_lambda_init r) ∧
    default (tl_lambda_bd r) (it_lambda_bd <$> tl_iterations r !! S i) = it_lambda_bd' log ∧
    8 ≤ length (it_lambda_bd log) ∧
    length (it_lambda_bd log) = length (tl_tau_bd r) ∧
    (∃ m, length (tl_tau_bd r) = 4 * m) ∧
    length (it_trajpts_traj log) = length (it_trajpts_tps log) ∧
    it_traj_diff log = zip_with (pzip rsub) (it_trajpts_traj log) (it_trajpts_tps log) ∧
    it_abs_traj_diff log = abs_sum (it_traj_diff log) ∧
    length (it_lambda_bd log) = length (it_traj_diff log) ∧
    it_lambda_bd' log
      = zip_with (pzip rsub) (it_lambda_bd log) (np_scale (lit 0.001) (it_traj_diff log)).
Proof.
  intros Hr Hi.
  destruct (Decomp_transfer_locals_inv C _ _ _ _ Hr)
    as (k & s0 & s' & pts & key & n & _ & Htau & Hinit & _ & _ & _ & _ & Hv & Hreq & Hsf
        & Hktau & Hnu & Hth & Hs0 & Hloop & _ & Hlam' & _).
  apply points_to_array_Ok in Htau as (_ & Htau4 & Htau).
  apply loop_Ok_inv in Hloop as (Htr & _).
  assert (Hlen0 : length (lv_lambda_bd s0) = length (lc_tau_bd k)).
  { by rewrite Hs0, Hinit, length_set_column0, length_np_zeros_like, Hktau. }
  assert (Htau2 : 2 ≤ length (lc_tau_bd k)) by (rewrite Hktau; lia).
  destruct (trace_arith C _ _ _ _ _ Htr Hlen0 Htau2 _ _ Hi) as (Ha & Hb & Hc & Hd & He).
  destruct (trace_lookup C _ _ _ _ _ _ _ Htr Hi) as (si & si' & Hit & Hfirst & _ & Hnext).
  assert (Hlam : length (it_lambda_bd log) = length (tl_tau_bd r)).
  { apply iteration_Ok_inv in Hit as (_ & _ & _ & _ & _ & _ & _ & Htps & _).
    rewrite Hd, Hb, length_zip_with, <- Ha, Nat.min_id, Ha, Htps.
    by rewrite length_transform_points, Hktau. }
  exists k, si, si'. rewrite <- Hnu, Hlam'. split_and!; try done.
  - intros ->. by rewrite Hfirst.
  - lia.
  - eauto.
Qed.

(** C4, amended: the duals start at [.001] in the first spatial dimension
    of every sample and at zero in the other two; with these duals the
    first warp fit is made, and with them the first iteration starts. *)
Theorem initial_duals_bias_first_dimension (self : Strategy) (demo : Demo) scene r :
  Decomp_transfer_locals C self demo scene = Ok r →
  tl_lambda_init r = (λ _, Pt (lit 0.001) (lit 0) (lit 0)) <$> tl_tau_bd r ∧
  fit_tau_bd (tl_init_fit_args r) = tl_tau_bd r ∧
  fit_lambda_bd (tl_init_fit_args r) = tl_lambda_init r ∧
  it_lambda_bd <$> head (tl_iterations r) = Some (tl_lambda_init r).
Proof.
  intros Hr.
  destruct (Decomp_transfer_locals_inv C _ _ _ _ Hr)
    as (k & s0 & s' & pts & key & n & _ & _ & Hinit & Hargs & _ & _ & _ & _ & _ & _
        & _ & _ & _ & Hs0 & Hloop & _).
  split_and!.
  - rewrite Hinit. apply initial_lambda_rows.
  - by rewrite Hargs.
  - by rewrite Hargs.
  - apply loop_Ok_inv in Hloop as (Htr & _ & Hpos & _).
    specialize (Hpos ltac:(unfold max_iter; lia)).
    destruct (tl_iterations r) as [|log logs]; [simpl in Hpos; lia|].
    inversion Htr as [|? ? ? ? ? Hit Htr']; subst. simpl.
    apply iteration_Ok_inv in Hit as (_ & _ & -> & _). by rewrite Hs0.
Qed.

(** C2: in every iteration the difference is, sample by sample and
    dimension by dimension, the contact point the candidate trajectory
    reaches minus the demonstration point under the refitted warp; the
    discrepancy is the sum of its absolute values; and the duals after the
    iteration are the duals before it minus [0.001] times the difference. *)
Theorem dual_update_from_discrepancy (self : Strategy) (demo : Demo) scene r i log :
  Decomp_transfer_locals C self demo scene = Ok r →
  tl_iterations r !! i = Some log →
  let robot := robot (sim self) in
  points_to_array
    (get_finger_pts_traj C robot side_r
       (full_traj (it_cur_traj log)
                  (dof_inds_from_name C robot (manip_name (tl_vars r)))))
    = Ok (it_trajpts_traj log) ∧
  it_trajpts_tps log = transform_points C (it_f log) (tl_tau_bd r) ∧
  length (it_trajpts_traj log) = length (it_trajpts_tps log) ∧
  it_traj_diff log = zip_with (pzip rsub) (it_trajpts_traj log) (it_trajpts_tps log) ∧
  it_abs_traj_diff log = abs_sum (it_traj_diff log) ∧
  length (it_lambda_bd log) = length (it_traj_diff log) ∧
  it_lambda_bd' log
    = zip_with (pzip rsub) (it_lambda_bd log)
               (pmap (rmul (lit 0.001)) <$> it_traj_diff log) ∧
  default (tl_lambda_bd r) (it_lambda_bd <$> tl_iterations r !! S i) = it_lambda_bd' log.
Proof.
  intros Hr Hi robot.
  destruct (transfer_iteration _ _ _ _ _ _ Hr Hi)
    as (k & si & si' & Hit & Hv & _ & _ & Htau & _ & _ & _ & Hnext & _ & _ & _ & Hlen
        & Hdiff & Habs & Hlen' & Hupd).
  apply iteration_Ok_inv in Hit as (_ & _ & _ & _ & _ & _ & _ & Htps & Hpts & _).
  rewrite Hv in Hpts. rewrite Htau in Htps. done.
Qed.

Lemma py_div_Ok_inv (x : R) (n : Z) (y : R) :
  py_div x n = Ok y → n ≠ 0%Z ∧ y = rdiv x (of_int n).
Proof. unfold py_div. case_decide; [done|]. by intros [= <-]. Qed.

Lemma length_range4 (stop : nat) : length (range4 stop) = (stop + 3) / 4.
Proof. unfold range4. by rewrite length_fmap, length_seq. Qed.

(** The costs the loop over [i_step] appends when [start_fixed] is off. *)
Lemma lambda_costs_Ok (self : Strategy) v n lambda_bd traj_dim steps cs :
  mapM (lambda_cost self v n false lambda_bd traj_dim) steps = Ok cs →
  steps ≠ [] →
  Z.of_nat n ≠ 0%Z ∧
  omap id cs
    = contact_following_cost v lambda_bd traj_dim
        (rdiv (beta_pos self) (of_int (Z.of_nat n))) <$> steps.
Proof.
  intros Hm Hne. split.
  - destruct steps as [|i_step steps]; [done|]. simpl in Hm.
    apply bind_Ok_inv in Hm as (c & Hc & _). unfold lambda_cost in Hc.
    destruct (decide (i_step < traj_dim)); simpl in Hc;
      apply bind_Ok_inv in Hc as (pc & Hpc & _);
      by apply py_div_Ok_inv in Hpc as [? _].
  - clear Hne. revert cs Hm. induction steps as [|i_step steps IH]; intros cs; simpl.
    + by intros [= <-].
    + intros Hm. apply bind_Ok_inv in Hm as (c & Hc & Hm).
      apply bind_Ok_inv in Hm as (cs' & Hcs & [= <-]).
      assert (c = Some (contact_following_cost v lambda_bd traj_dim
                          (rdiv (beta_pos self) (of_int (Z.of_nat n))) i_step)) as ->.
      { unfold lambda_cost in Hc. unfold contact_following_cost.
        destruct (decide (i_step < traj_dim)); simpl in Hc;
          apply bind_Ok_inv in Hc as (pc & Hpc & [= <-]);
          apply py_div_Ok_inv in Hpc as [_ ->]; done. }
      simpl. f_equal. by apply IH.
Qed.

(** The request of the [i]-th iteration. *)
Lemma transfer_request (self : Strategy) (demo : Demo) scene r i log :
  Decomp_transfer_locals C self demo scene = Ok r →
  tl_iterations r !! i = Some log →
  let n := n_steps (it_request log) in
  let traj_dim := length (it_lambda_bd log) / 2 in
  (Z.of_nat n - 1 ≠ 0)%Z ∧
  Z.of_nat n ≠ 0%Z ∧
  4 * length (range4 (traj_dim * 2)) = length (it_lambda_bd log) ∧
  costs (it_request log)
    = joint_vel [rdiv (gamma self) (of_int (Z.of_nat n - 1))]
      :: (if use_collision_cost self
          then [collision true [of_int 1000] [lit 0.025]] else [])
      ++ (contact_following_cost (tl_vars r) (it_lambda_bd log) traj_dim
            (rdiv (beta_pos self) (of_int (Z.of_nat n)))
            <$> range4 (traj_dim * 2)).
Proof.
  intros Hr Hi n traj_dim.
  destruct (transfer_iteration _ _ _ _ _ _ Hr Hi)
    as (k & si & si' & Hit & Hv & Hreq & Hsf & _ & _ & _ & _ & _ & Hlen8 & Hlen
        & [m Hm] & _).
  destruct (Decomp_transfer_locals_inv C _ _ _ _ Hr)
    as (_ & _ & _ & _ & _ & n0 & _ & _ & _ & _ & _ & _ & Hbase & _).
  apply base_request_Ok_inv in Hbase as (coeff & Hcoeff & Hbase).
  apply py_div_Ok_inv in Hcoeff as [Hn0 ->].
  apply iteration_Ok_inv in Hit as (cs & Hcs & Hlam & Hrq & _).
  rewrite Hreq, Hv, Hsf, <- Hlam in Hcs.
  assert (Hsteps : 4 * length (range4 (traj_dim * 2)) = length (it_lambda_bd log)).
  { rewrite length_range4. unfold traj_dim. rewrite Hlen, Hm.
    replace (4 * m) with (m * 2 * 2) by lia. rewrite Nat.div_mul by done.
    replace (m * 2 * 2 + 3) with (3 + m * 4) by lia.
    rewrite Nat.div_add by done. simpl. lia. }
  apply lambda_costs_Ok in Hcs as [Hn Hcs];
    [|intros Hnil; unfold traj_dim in Hsteps; rewrite Hnil in Hsteps;
      simpl in Hsteps; lia].
  subst n. rewrite Hrq. rewrite Hreq.
  rewrite Hbase. rewrite Hbase in Hn, Hcs. simpl in *.
  split_and!; try done.
  by rewrite Hcs.
Qed.


(** What the code does about C1, for every run: in every iteration the warp
    refit is given the negated duals, the sign every contact-following cost
    of the request uses; the fit before the loop is given the duals
    themselves. *)
Lemma refit_receives_negated_duals (self : Strategy) (demo : Demo) scene r i log :
  Decomp_transfer_locals C self demo scene = Ok r →
  tl_iterations r !! i = Some log →
  fit_tau_bd (it_fit_args log) = tl_tau_bd r ∧
  fit_lambda_bd (it_fit_args log) = np_neg (it_lambda_bd log) ∧
  fit_lambda_bd (tl_init_fit_args r) = tl_lambda_init r ∧
  ∀ lambdas rel_xyzs link timestep pos_coeffs,
    rel_pts_lambdas lambdas rel_xyzs link timestep pos_coeffs ∈ costs (it_request log) →
    ∃ row, lambdas = np_neg (rows4 (it_lambda_bd log) row).
Proof.
  intros Hr Hi.
  destruct (transfer_request _ _ _ _ _ _ Hr Hi) as (_ & _ & _ & Hcosts).
  destruct (transfer_iteration _ _ _ _ _ _ Hr Hi)
    as (k & si & si' & Hit & _ & _ & _ & Htau & _).
  destruct (Decomp_transfer_locals_inv C _ _ _ _ Hr)
    as (_ & _ & _ & _ & _ & _ & _ & _ & _ & Hargs & _).
  apply iteration_Ok_inv in Hit as (_ & _ & Hlam & _ & _ & Hfit & _).
  rewrite Hfit, Hargs, <- Hlam, Htau. split_and!; try done.
  intros lambdas rel_xyzs link timestep pos_coeffs Hin. rewrite Hcosts in Hin.
  apply elem_of_cons in Hin as [Hin|Hin]; [done|].
  apply elem_of_app in Hin as [Hin|Hin].
  - destruct (use_collision_cost self); [|by apply elem_of_nil in Hin].
    by apply list_elem_of_singleton in Hin.
  - apply list_elem_of_fmap in Hin as (i_step & Hc & _).
    unfold contact_following_cost in Hc. injection Hc as -> _ _ _ _. eauto.
Qed.

Lemma trace_last (self : Strategy) k s logs s' log :
  trace C self k s logs s' → last logs = Some log →
  lv_cur_traj s' = it_cur_traj log ∧ lv_lambda_bd s' = it_lambda_bd' log.
Proof.
  induction 1 as [s|s s1 s' log0 logs Hit Htr IH]; [done|].
  destruct logs as [|log1 logs].
  - intros [= <-]. inversion Htr; subst.
    by apply iteration_Ok_inv in Hit as (? & _ & _ & _ & _ & _ & _ & _ & _ & _ & _ & _ & _ & ->).
  - intros Hl. by apply IH.
Qed.

(** The loop of a run that does not raise: between one and [max_iter]
    iterations; an iteration converged when its discrepancy is below
    [1e-2 * lambda_bd.size]; every iteration but the last did not
    converge, and the last one did unless it is the twentieth; the
    trajectory the loop leaves in [cur_traj] is the last one optimized. *)
Lemma loop_stops_at_convergence_or_cap (self : Strategy) (demo : Demo) scene r :
  Decomp_transfer_locals C self demo scene = Ok r →
  0 < length (tl_iterations r) ≤ 20 ∧
  (∀ i log, tl_iterations r !! i = Some log →
     it_converged log
     = rltb (it_abs_traj_diff log)
            (rmul (lit 1e-2) (of_int (np_size (tl_lambda_init r))))) ∧
  (∀ i log, tl_iterations r !! i = Some log →
     S i < length (tl_iterations r) → it_converged log = false) ∧
  ∃ log, last (tl_iterations r) = Some log ∧
         (length (tl_iterations r) < 20 → it_converged log = true) ∧
         tl_cur_traj r = it_cur_traj log ∧
         tl_lambda_bd r = it_lambda_bd' log.
Proof.
  intros Hr.
  destruct (Decomp_transfer_locals_inv C _ _ _ _ Hr)
    as (k & s0 & s' & _ & _ & _ & _ & _ & _ & _ & _ & _ & _ & _ & _ & _ & _ & _ & Hth
        & _ & Hloop & Hcur & Hlam & _).
  apply loop_Ok_inv in Hloop as (Htr & Hle & Hpos & Hnot & Hlast).
  unfold max_iter in *. specialize (Hpos ltac:(lia)).
  split_and!; try done.
  - intros i log Hi.
    destruct (trace_lookup C _ _ _ _ _ _ _ Htr Hi) as (si & si' & Hit & _).
    apply iteration_Ok_inv in Hit
      as (? & _ & _ & _ & _ & _ & _ & _ & _ & _ & _ & _ & -> & _).
    by rewrite Hth.
  - destruct (last (tl_iterations r)) as [log|] eqn:Hl.
    + exists log. destruct (trace_last _ _ _ _ _ _ Htr Hl) as [Hc Hb].
      split_and!; try done; try congruence.
      intros Hlt. destruct (Hlast Hlt) as (log' & [= <-] & ?). done.
    + apply last_None in Hl. rewrite Hl in Hpos. simpl in Hpos. lia.
Qed.

(** A call of [transfer] that does not raise evaluates to [None]. *)
Lemma Decomp_transfer_returns_None (self : Strategy) (demo : Demo) scene v :
  Decomp_transfer C self demo scene = Ok v → v = None.
Proof.
  unfold Decomp_transfer. intros Hv.
  apply bind_Ok_inv in Hv as (r & _ & [= <-]). done.
Qed.

End TransferFacts.

(** ** The left gripper's contact points *)

Section LeftGripper.
Context {R : Type} `{Scalar R}.
Context {Hmat SceneState Robot Warp Fit : Type}.
Context (C : Collaborators R Hmat Robot Warp Fit).
Context (left_pts : Robot → traj_arg R Hmat → finger_pts R).

Abbreviation Strategy := (FingerStrategy R Hmat SceneState Robot Warp).
Abbreviation Demo := (Demonstration R Hmat SceneState).
Abbreviation C' := (with_left_pts C left_pts).

Lemma getitem_Ok_inv {A} (d : lrdict A) lr a : getitem d lr = Ok a → d lr = Some a.
Proof. unfold getitem. destruct (d lr); [by intros [= ->] | done]. Qed.

Lemma traj_to_points_Ok_inv (self : Strategy) aug_traj pts :
  traj_to_points C self aug_traj true = Ok pts →
  ∃ key ee_traj finger_traj,
    resample_key C aug_traj [side_r] = Ok key ∧
    let demo_aug_traj_rs := get_resampled_traj C aug_traj (unif_resample C key (lit 1)) in
    lr2ee_traj demo_aug_traj_rs side_r = Some ee_traj ∧
    lr2finger_traj demo_aug_traj_rs side_r = Some finger_traj ∧
    pts = get_finger_pts_traj C (robot (sim self)) side_r (ee_finger ee_traj finger_traj).
Proof.
  unfold traj_to_points. intros Hp.
  apply bind_Ok_inv in Hp as (rs & Hrs & Hp).
  apply bind_Ok_inv in Hrs as (key & Hkey & [= <-]).
  apply bind_Ok_inv in Hp as (ee & Hee & Hp).
  apply bind_Ok_inv in Hp as (fing & Hfing & [= <-]).
  apply getitem_Ok_inv in Hee, Hfing. by exists key, ee, fing.
Qed.

Lemma arm_pass_left (self : Strategy) f rs v p lr v1 v1' :
  arm_pass C self f rs v lr = Ok v1 →
  arm_pass C' self f rs (with_pts_trajs v p) lr = Ok v1' →
  ∃ p1, v1' = with_pts_trajs v1 p1.
Proof.
  unfold arm_pass. cbn [with_pts_trajs manip_name init_traj flr2finger_link_names
                        flr2demo_finger_pts_trajs_rs].
  intros H1 H2.
  apply bind_Ok_inv in H1 as (arm & Harm & H1).
  apply bind_Ok_inv in H2 as (arm' & Harm' & H2).
  assert (arm' = arm) as -> by congruence.
  apply bind_Ok_inv in H1 as (fing & Hfing & H1).
  apply bind_Ok_inv in H2 as (fing' & Hfing' & H2).
  assert (fing' = fing) as -> by congruence.
  apply bind_Ok_inv in H1 as (it & Hit & H1).
  apply bind_Ok_inv in H2 as (it' & Hit' & H2).
  assert (it' = it) as -> by congruence.
  apply bind_Ok_inv in H1 as (ee & Hee & H1).
  apply bind_Ok_inv in H2 as (ee' & Hee' & H2).
  assert (ee' = ee) as -> by congruence.
  apply bind_Ok_inv in H1 as (fing2 & Hfing2 & H1).
  apply bind_Ok_inv in H2 as (fing2' & Hfing2' & H2).
  assert (fing2' = fing2) as -> by congruence.
  apply bind_Ok_inv in H1 as (? & _ & [= <-]).
  apply bind_Ok_inv in H2 as (? & _ & [= <-]).
  eexists. reflexivity.
Qed.

Lemma arm_loop_left (self : Strategy) f rs lrs v p v1 v1' :
  arm_loop C self f rs v lrs = Ok v1 →
  arm_loop C' self f rs (with_pts_trajs v p) lrs = Ok v1' →
  ∃ p1, v1' = with_pts_trajs v1 p1.
Proof.
  revert v p. induction lrs as [|lr lrs IH]; intros v p; simpl.
  - intros [= <-] [= <-]. by exists p.
  - intros H1 H2.
    apply bind_Ok_inv in H1 as (v2 & Hv2 & H1).
    apply bind_Ok_inv in H2 as (v2' & Hv2' & H2).
    destruct (arm_pass_left _ _ _ _ _ _ _ _ Hv2 Hv2') as [p2 ->]. eauto.
Qed.

(** An iteration reads the demonstration contact points of the arms only
    to transform them for drawing; its results do not depend on them. *)
Lemma iteration_left (self : Strategy) k p s x x' :
  iteration C self k s = Ok x →
  iteration C' self (with_vars k (with_pts_trajs (lc_vars k) p)) s = Ok x' →
  x' = x.
Proof.
  unfold iteration.
  cbn [with_vars with_pts_trajs lc_vars lc_request lc_start_fixed lc_x_na lc_y_ng
       lc_bend_coefs lc_rot_coefs lc_wt_n lc_tau_bd lc_nu lc_traj_diff_thresh
       manip_name flr2finger_link_name flr2finger_rel_pts flr2demo_finger_pts_trajs_rs].
  intros H1 H2.
  apply bind_Ok_inv in H1 as (? & _ & H1). apply bind_Ok_inv in H1 as (? & _ & H1).
  apply bind_Ok_inv in H2 as (? & _ & H2). apply bind_Ok_inv in H2 as (? & _ & H2).
  cut (Ok x' = Ok x); [by intros [= ->]|]. rewrite <- H1, <- H2. reflexivity.
Qed.

Lemma loop_left (self : Strategy) k p n s x x' :
  loop C self k n s = Ok x →
  loop C' self (with_vars k (with_pts_trajs (lc_vars k) p)) n s = Ok x' →
  x' = x.
Proof.
  revert s x x'. induction n as [|n IH]; intros s x x'; simpl.
  - by intros [= <-] [= <-].
  - intros H1 H2.
    apply bind_Ok_inv in H1 as ([s1 log] & Hit & H1).
    apply bind_Ok_inv in H2 as ([s1' log'] & Hit' & H2).
    pose proof (iteration_left _ _ _ _ _ _ Hit Hit') as [= -> ->].
    destruct (it_converged log); [congruence|].
    apply bind_Ok_inv in H1 as ([s2 logs] & Hloop & [= <-]).
    apply bind_Ok_inv in H2 as ([s2' logs'] & Hloop' & [= <-]).
    by pose proof (IH _ _ _ Hloop Hloop') as [= -> ->].
Qed.

(** C10: the demonstration points that enter the duals are those of the
    right gripper, whichever arms moved; each discrepancy is taken against
    the right gripper's achieved points; and whatever the extractor
    answers for the left gripper, a run that does not raise has the same
    demonstration points, the same duals and the same iterations,
    discrepancies included. *)
Theorem duals_use_right_gripper_only (self : Strategy) (demo : Demo) scene r r' :
  Decomp_transfer_locals C self demo scene = Ok r →
  Decomp_transfer_locals C' self demo scene = Ok r' →
  (∃ key ee_traj finger_traj,
     resample_key C (aug_traj demo) [side_r] = Ok key ∧
     let demo_aug_traj_rs :=
       get_resampled_traj C (aug_traj demo) (unif_resample C key (lit 1)) in
     lr2ee_traj demo_aug_traj_rs side_r = Some ee_traj ∧
     lr2finger_traj demo_aug_traj_rs side_r = Some finger_traj ∧
     points_to_array
       (get_finger_pts_traj C (robot (sim self)) side_r (ee_finger ee_traj finger_traj))
       = Ok (tl_tau_bd r)) ∧
  Forall (λ log,
            points_to_array
              (get_finger_pts_traj C (robot (sim self)) side_r
                 (full_traj (it_cur_traj log)
                    (dof_inds_from_name C (robot (sim self)) (manip_name (tl_vars r)))))
            = Ok (it_trajpts_traj log))
         (tl_iterations r) ∧
  tl_tau_bd r' = tl_tau_bd r ∧
  tl_lambda_init r' = tl_lambda_init r ∧
  tl_iterations r' = tl_iterations r ∧
  tl_lambda_bd r' = tl_lambda_bd r.
Proof.
  intros Hr Hr'. split; [|split].
  - destruct (Decomp_transfer_locals_inv C _ _ _ _ Hr)
      as (_ & _ & _ & pts & _ & _ & Hpts & Htau & _).
    apply traj_to_points_Ok_inv in Hpts as (key & ee & fing & Hkey & Hee & Hfing & ->).
    by exists key, ee, fing.
  - apply Forall_lookup. intros i log Hi.
    destruct (transfer_iteration C _ _ _ _ _ _ Hr Hi) as (k & si & si' & Hit & Hv & _).
    apply iteration_Ok_inv in Hit as (_ & _ & _ & _ & _ & _ & _ & _ & Hpts & _).
    by rewrite Hv in Hpts.
  - unfold Decomp_transfer_locals in Hr, Hr'. cbv zeta in Hr, Hr'.
    apply bind_Ok_inv in Hr as (pts & Hpts & Hr).
    apply bind_Ok_inv in Hr' as (pts' & Hpts' & Hr').
    same_result Hpts Hpts'.
    apply bind_Ok_inv in Hr as (tau & Htau & Hr).
    apply bind_Ok_inv in Hr' as (tau' & Htau' & Hr').
    same_result Htau Htau'.
    apply bind_Ok_inv in Hr as (key & Hkey & Hr).
    apply bind_Ok_inv in Hr' as (key' & Hkey' & Hr').
    same_result Hkey Hkey'.
    apply bind_Ok_inv in Hr as (v & Hv & Hr).
    apply bind_Ok_inv in Hr' as (v' & Hv' & Hr').
    destruct (arm_loop_left _ _ _ _ _ [] _ _ Hv Hv') as [p ->].
    apply bind_Ok_inv in Hr as (it & Hit & Hr).
    apply bind_Ok_inv in Hr' as (it' & Hit' & Hr').
    same_result Hit Hit'.
    apply bind_Ok_inv in Hr as (? & _ & Hr). apply bind_Ok_inv in Hr as (? & _ & Hr).
    apply bind_Ok_inv in Hr as (? & _ & Hr).
    apply bind_Ok_inv in Hr' as (? & _ & Hr'). apply bind_Ok_inv in Hr' as (? & _ & Hr').
    apply bind_Ok_inv in Hr' as (? & _ & Hr').
    apply bind_Ok_inv in Hr as (req & Hreq & Hr).
    apply bind_Ok_inv in Hr' as (req' & Hreq' & Hr').
    same_result Hreq Hreq'.
    apply bind_Ok_inv in Hr as ([s logs] & Hloop & [= <-]).
    apply bind_Ok_inv in Hr' as ([s' logs'] & Hloop' & [= <-]).
    pose proof (loop_left _ _ p _ _ _ _ Hloop Hloop') as [= -> ->].
    done.
Qed.

End LeftGripper.

(** ** The concrete world *)

Section ExampleRuns.
Import Example.
Local Open Scope Q_scope.

(** C4 as stated fails: the initial duals are [.001] in the first
    dimension and zero, not the same bias, in the other two. *)
Lemma initial_duals_zero_outside_first_dimension :
  ∃ r, Decomp_transfer_locals (world 0 two_squares) strategy demo tt = Ok r ∧
       tl_lambda_init r = replicate 16 (pt 0.001 0 0) ∧
       ¬ ∃ b, b ≠ 0 ∧ Forall (λ p, px p = b ∧ py p = b ∧ pz p = b) (tl_lambda_init r).
Proof.
  eexists. split; [vm_compute; reflexivity|]. split; [reflexivity|].
  intros (b & Hb & Hall). apply Forall_inv in Hall as (_ & Hy & _).
  simpl in Hy. congruence.
Qed.

Lemma initial_duals_bias_first_dimension_witness :
  ∃ r, Decomp_transfer_locals (world 0 two_squares) strategy demo tt = Ok r ∧
       tl_lambda_init r = (λ _, Pt (lit 0.001) (lit 0) (lit 0)) <$> tl_tau_bd r ∧
       fit_tau_bd (tl_init_fit_args r) = tl_tau_bd r ∧
       fit_lambda_bd (tl_init_fit_args r) = tl_lambda_init r ∧
       it_lambda_bd <$> head (tl_iterations r) = Some (tl_lambda_init r).
Proof.
  eexists. split; [vm_compute; reflexivity|].
  apply (initial_duals_bias_first_dimension (world 0 two_squares) strategy demo tt).
  vm_compute. reflexivity.
Defined.

Lemma dual_update_from_discrepancy_witness :
  ∃ r log,
    Decomp_transfer_locals (world 1 two_squares) strategy demo tt = Ok r ∧
    tl_iterations r !! 0%nat = Some log ∧
    points_to_array
      (get_finger_pts_traj (world 1 two_squares) tt side_r
         (full_traj (it_cur_traj log)
            (dof_inds_from_name (world 1 two_squares) tt (manip_name (tl_vars r)))))
      = Ok (it_trajpts_traj log) ∧
    it_trajpts_tps log = transform_points (world 1 two_squares) (it_f log) (tl_tau_bd r) ∧
    length (it_trajpts_traj log) = length (it_trajpts_tps log) ∧
    it_traj_diff log = zip_with (pzip rsub) (it_trajpts_traj log) (it_trajpts_tps log) ∧
    it_abs_traj_diff log = abs_sum (it_traj_diff log) ∧
    length (it_lambda_bd log) = length (it_traj_diff log) ∧
    it_lambda_bd' log
      = zip_with (pzip rsub) (it_lambda_bd log)
                 (pmap (rmul (lit 0.001)) <$> it_traj_diff log) ∧
    default (tl_lambda_bd r) (it_lambda_bd <$> tl_iterations r !! 1%nat) = it_lambda_bd' log.
Proof.
  eexists _, _. split; [vm_compute; reflexivity|]. split; [reflexivity|].
  apply (dual_update_from_discrepancy (world 1 two_squares) strategy demo tt _ 0%nat);
    vm_compute; reflexivity.
Defined.

(** The first iteration in numbers: every achieved point is (1, 1, 1), every
    warped demonstration point (0, 0, 0); the discrepancy is 16 * 3 = 48; the
    duals go from (0.001, 0, 0) to (0, -0.001, -0.001). *)
Example first_iteration_numbers :
  ∃ r log,
    Decomp_transfer_locals (world 1 two_squares) strategy demo tt = Ok r ∧
    tl_iterations r !! 0%nat = Some log ∧
    it_traj_diff log = replicate 16 (pt 1 1 1) ∧
    it_abs_traj_diff log = 48 ∧
    it_lambda_bd log = replicate 16 (pt 0.001 0 0) ∧
    it_lambda_bd' log = replicate 16 (pt 0 (-0.001) (-0.001)).
Proof.
  eexists _, _. split; [vm_compute; reflexivity|]. split; [reflexivity|].
  repeat split; reflexivity.
Qed.


Lemma duals_use_right_gripper_only_witness :
  ∃ r r',
    Decomp_transfer_locals (world 1 two_squares) strategy demo tt = Ok r ∧
    Decomp_transfer_locals
      (with_left_pts (world 1 two_squares) (λ _ _, other_squares)) strategy demo tt
      = Ok r' ∧
    tl_vars r' ≠ tl_vars r ∧
    tl_tau_bd r' = tl_tau_bd r ∧
    tl_lambda_init r' = tl_lambda_init r ∧
    tl_iterations r' = tl_iterations r ∧
    tl_lambda_bd r' = tl_lambda_bd r.
Proof.
  eexists _, _. split; [vm_compute; reflexivity|]. split; [vm_compute; reflexivity|].
  split.
  - intros Heq. apply (f_equal flr2demo_finger_pts_trajs_rs) in Heq. discriminate Heq.
  - eapply (duals_use_right_gripper_only (world 1 two_squares) (λ _ _, other_squares)
              strategy demo tt);
      vm_compute; reflexivity.
Defined.

(** C1 at a concrete run: in the first iteration the duals are
    (0.001, 0, 0) in every row; the request's contact-following costs carry
    (-0.001, 0, 0), and the warp refit is given (-0.001, 0, 0) as well, the
    same sign and not the opposite one.  Only the fit before the loop was
    given (0.001, 0, 0). *)
Lemma refit_and_request_share_the_sign :
  ∃ r log,
    Decomp_transfer_locals (world 1 two_squares) strategy demo tt = Ok r ∧
    tl_iterations r !! 0%nat = Some log ∧
    it_lambda_bd log = replicate 16 (pt 0.001 0 0) ∧
    fit_lambda_bd (tl_init_fit_args r) = replicate 16 (pt 0.001 0 0) ∧
    fit_lambda_bd (it_fit_args log) = replicate 16 (pt (-0.001) 0 0) ∧
    fit_lambda_bd (it_fit_args log) ≠ it_lambda_bd log ∧
    costs (it_request log) !! 2%nat
      = Some (rel_pts_lambdas (replicate 4 (pt (-0.001) 0 0))
                              (replicate 4 (pt 0 0 0))
                              "r_gripper_l_finger_tip_link" 0 [1; 1; 1; 1]).
Proof.
  eexists _, _. split; [vm_compute; reflexivity|]. split; [reflexivity|].
  repeat split; try reflexivity. discriminate.
Qed.



End ExampleRuns.


(** * More properties *)

(** ** Greedy action selection: the head of the agenda, and ties *)

Section GreedyMore.
Import ActionSelection.
Context {SceneState : Type}.

Lemma plan_agenda_Ok_inv (rf : RegistrationFactory SceneState) st x y :
  plan_agenda rf st = Ok (x, y) →
  let rows := sorted ((λ '(action, q_value), (q_value, action))
                        <$> map_to_list (batch_cost rf st)) in
  rows ≠ [] ∧ x = inr rows.*2 ∧ y = inl rows.*1.
Proof.
  intros Hp rows. unfold plan_agenda in Hp. cbv zeta in Hp. fold rows in Hp.
  destruct rows as [|row rows'] eqn:Hrows; [discriminate|].
  simpl in Hp. injection Hp as <- <-. done.
Qed.

Lemma rows_of_mapping (m : gmap string Q) a q :
  m !! a = Some q →
  (q, a) ∈ sorted ((λ '(action, q_value), (q_value, action)) <$> map_to_list m).
Proof.
  intros Hm. rewrite (sorted_Permutation _).
  apply list_elem_of_fmap. exists (a, q). split; [done|].
  by apply elem_of_map_to_list.
Qed.

Lemma Sorted_lookup_succ {A} (Rel : relation A) (l : list A) i x y :
  Sorted Rel l → l !! i = Some x → l !! S i = Some y → Rel x y.
Proof.
  intros Hs. revert i. induction Hs as [|z l Hs IH Hhd]; intros i; [done|].
  destruct i as [|i]; simpl.
  - intros [= ->] Hy. destruct Hhd as [|w l Hzw]; [done|].
    simpl in Hy. by injection Hy as <-.
  - apply IH.
Qed.

(** The first action of the agenda is one of least cost: its cost, which is
    the first of the returned costs, is at most the cost the oracle gives to
    any action. *)
Theorem Greedy_first_action_is_cheapest
    (rf : RegistrationFactory SceneState) st agenda q_values :
  plan_agenda rf st = Ok (inr agenda, inl q_values) →
  ∃ action q_value,
    head agenda = Some action ∧
    head q_values = Some q_value ∧
    batch_cost rf st !! action = Some q_value ∧
    ∀ other q, batch_cost rf st !! other = Some q → (q_value <= q)%Q.
Proof.
  intros Hp. apply plan_agenda_Ok_inv in Hp as (Hne & [= ->] & [= ->]).
  set (m := batch_cost rf st) in *.
  set (rows := sorted _) in *.
  pose proof (sorted_costs ((λ '(action, q_value), (q_value, action)) <$> map_to_list m))
    as Hsorted.
  fold rows in Hsorted.
  assert (Htrans : Transitive Qle) by (intros ? ? ?; apply Qle_trans).
  apply Sorted_StronglySorted in Hsorted; [|done].
  destruct rows as [|[q0 a0] rows'] eqn:Hrows; [done|].
  exists a0, q0. split_and!; try done.
  - apply elem_of_map_to_list.
    assert (Hin : (q0, a0) ∈ rows) by (rewrite Hrows; apply list_elem_of_here).
    unfold rows in Hin. rewrite (sorted_Permutation _) in Hin.
    apply list_elem_of_fmap in Hin as ([a q] & [= -> ->] & Hin). done.
  - intros other q Hother. apply rows_of_mapping in Hother. fold m rows in Hother.
    rewrite Hrows in Hother. apply elem_of_cons in Hother as [[= -> ->]|Hin].
    + apply Qle_refl.
    + simpl in Hsorted. apply StronglySorted_inv in Hsorted as [_ Hall].
      rewrite Forall_forall in Hall. apply Hall.
      apply list_elem_of_fmap. by exists (q, other).
Qed.

(** Two neighbours of the agenda with equal costs are in the order of their
    names. *)
Theorem Greedy_ties_are_ordered_by_name
    (rf : RegistrationFactory SceneState) st agenda q_values i a b qa qb :
  plan_agenda rf st = Ok (inr agenda, inl q_values) →
  agenda !! i = Some a → agenda !! S i = Some b →
  q_values !! i = Some qa → q_values !! S i = Some qb →
  (qa == qb)%Q →
  String.leb a b = true.
Proof.
  intros Hp Ha Hb Hqa Hqb Heq.
  apply plan_agenda_Ok_inv in Hp as (_ & [= ->] & [= ->]).
  set (rows := sorted _) in *.
  rewrite list_lookup_fmap in Ha. rewrite list_lookup_fmap in Hb.
  rewrite list_lookup_fmap in Hqa. rewrite list_lookup_fmap in Hqb.
  destruct (rows !! i) as [[q1 a1]|] eqn:H1; [|done].
  destruct (rows !! S i) as [[q2 a2]|] eqn:H2; [|done].
  simpl in *. injection Ha as ->. injection Hb as ->.
  injection Hqa as ->. injection Hqb as ->.
  pose proof (Sorted_merge_sort tuple_le
                ((λ '(action, q_value), (q_value, action))
                   <$> map_to_list (batch_cost rf st))) as Hs.
  pose proof (Sorted_lookup_succ _ _ _ _ _ Hs H1 H2) as Hle.
  unfold tuple_le, tuple_leb in Hle. simpl in Hle.
  apply Qeq_alt in Heq. by rewrite Heq in Hle.
Qed.

End GreedyMore.

(** ** The regrouping of the warped points *)

Section Grouping.
Context {A : Type}.

Lemma group_step_keep (acc : list (list A)) k j (held : list A) x :
  j < 3 →
  group_step (acc, 4 * k + j, held) x = (acc, 4 * k + S j, held ++ [x]).
Proof.
  intros Hj. unfold group_step.
  replace (4 * k + j) with (j + k * 4) by lia.
  rewrite Nat.Div0.mod_add, Nat.mod_small by lia.
  rewrite decide_False by lia. f_equal. f_equal. lia.
Qed.

Lemma group_step_flush (acc : list (list A)) k (held : list A) x :
  group_step (acc, 4 * k + 3, held) x = (acc ++ [held ++ [x]], 4 * S k + 0, []).
Proof.
  unfold group_step.
  replace (4 * k + 3) with (3 + k * 4) by lia.
  rewrite Nat.Div0.mod_add, Nat.mod_small by lia.
  rewrite decide_True by done. f_equal. f_equal. lia.
Qed.

Lemma group_four (acc : list (list A)) k a b c d rest :
  foldl group_step (acc, 4 * k + 0, []) (a :: b :: c :: d :: rest)
  = foldl group_step (acc ++ [[a; b; c; d]], 4 * S k + 0, []) rest.
Proof.
  cbn [foldl].
  rewrite !group_step_keep, group_step_flush by lia. done.
Qed.

Lemma group_chunks q : ∀ (pts : list A) acc k,
  length pts / 4 = q →
  ∃ chunks,
    (foldl group_step (acc, 4 * k + 0, []) pts).1.1 = acc ++ chunks ∧
    concat chunks = take (4 * q) pts ∧
    Forall (λ g, length g = 4) chunks ∧
    length chunks = q.
Proof.
  induction q as [|q IH]; intros pts acc k Hq.
  - exists []. rewrite app_nil_r. split_and!; try done.
    destruct pts as [|a [|b [|c [|d rest]]]]; cbn [foldl];
      rewrite ?group_step_keep by lia; try done.
    exfalso. cbn [length] in Hq.
    replace (S (S (S (S (length rest))))) with (1 * 4 + length rest) in Hq by lia.
    rewrite Nat.div_add_l in Hq by done. lia.
  - destruct pts as [|a [|b [|c [|d rest]]]]; try (simpl in Hq; discriminate).
    cbn [length] in Hq.
    replace (S (S (S (S (length rest))))) with (1 * 4 + length rest) in Hq by lia.
    rewrite Nat.div_add_l in Hq by done.
    destruct (IH rest (acc ++ [[a; b; c; d]]) (S k) ltac:(lia))
      as (chunks & Hfold & Hcat & Hall & Hlen).
    exists ([a; b; c; d] :: chunks). rewrite group_four, Hfold.
    split_and!.
    + by rewrite <- app_assoc.
    + replace (4 * S q) with (4 + 4 * q) by lia. simpl concat. rewrite Hcat. done.
    + by constructor.
    + simpl. lia.
Qed.

(** The regrouping cuts the points into consecutive groups of four and
    drops up to three points left over at the end. *)
Theorem target_traj_groups_of_four (warped_points : list A) :
  concat (target_traj warped_points)
    = take (4 * (length warped_points / 4)) warped_points ∧
  Forall (λ finger_points, length finger_points = 4) (target_traj warped_points) ∧
  length (target_traj warped_points) = length warped_points / 4.
Proof.
  destruct (group_chunks (length warped_points / 4) warped_points [] 0 eq_refl)
    as (chunks & Hfold & Hcat & Hall & Hlen).
  change (4 * 0 + 0) with 0 in Hfold. rewrite app_nil_l in Hfold.
  unfold target_traj. rewrite !Hfold. by split_and!.
Qed.

End Grouping.

(** ** The layout of the point arrays *)

Section Layout.
Context {R : Type} `{Scalar R}.
Context {Hmat Robot Warp Fit : Type}.
Context (C : Collaborators R Hmat Robot Warp Fit).

Lemma rows4_concat_corner_rows (cs : list (corners R)) t c :
  cs !! t = Some c → rows4 (concat (corner_rows <$> cs)) (4 * t) = corner_rows c.
Proof.
  revert t. induction cs as [|c' cs IH]; intros t; [done|].
  destruct t as [|t].
  - intros [= ->]. by destruct c.
  - intros Ht. replace (4 * S t) with (4 + 4 * t) by lia.
    rewrite fmap_cons. cbn [concat corner_rows app]. unfold rows4.
    cbn [Nat.add drop]. by apply IH.
Qed.

(** The array [points_to_array] returns has four rows per finger and
    timestep, the first finger's timesteps first: rows [4t .. 4t+3] are the
    four corners of the first finger at timestep [t], and the second
    finger's timestep [t] is at rows [4 (T + t) ..], [T] being the number of
    timesteps of the first finger.  It is returned only when both fingers
    have a timestep. *)
Theorem points_to_array_layout (flr : finger_pts R) (a : list (point R)) :
  points_to_array flr = Ok a →
  fl flr ≠ [] ∧ fr flr ≠ [] ∧
  length a = 4 * (length (fl flr) + length (fr flr)) ∧
  (∀ t c, fl flr !! t = Some c → rows4 a (4 * t) = corner_rows c) ∧
  (∀ t c, fr flr !! t = Some c → rows4 a (4 * (length (fl flr) + t)) = corner_rows c).
Proof.
  intros Ha. pose proof (points_to_array_Ok _ _ Ha) as (-> & Hlen & _).
  unfold points_to_array in Ha.
  split_and!; try done.
  - by destruct (fl flr), (fr flr).
  - by destruct (fl flr), (fr flr).
  - intros t c Ht. apply rows4_concat_corner_rows. by apply lookup_app_l_Some.
  - intros t c Ht. apply rows4_concat_corner_rows.
    rewrite lookup_app_r by lia. by replace (length (fl flr) + t - length (fl flr)) with t by lia.
Qed.

Lemma group_groups {A} (groups : list (list A)) : ∀ acc k,
  Forall (λ g, length g = 4) groups →
  (foldl group_step (acc, 4 * k + 0, []) (concat groups)).1.1 = acc ++ groups.
Proof.
  induction groups as [|g groups IH]; intros acc k Hall.
  - by rewrite app_nil_r.
  - apply Forall_cons in Hall as [Hg Hall].
    destruct g as [|a [|b [|c [|d [|e g]]]]]; try discriminate.
    cbn [concat app]. rewrite group_four, IH by done. by rewrite <- app_assoc.
Qed.

(** The regrouping undoes the flattening of [points_to_array]: the groups
    of the warped points are the warped corners, finger by finger and
    timestep by timestep. *)
Theorem target_traj_of_warped_points (f : Warp) (flr : finger_pts R) tau_bd :
  points_to_array flr = Ok tau_bd →
  target_traj (transform_points C f tau_bd)
  = (λ c, transform_point C f <$> corner_rows c) <$> (fl flr ++ fr flr).
Proof.
  intros Ha. apply points_to_array_Ok in Ha as (-> & _).
  set (cs := fl flr ++ fr flr).
  assert (Hflat : transform_points C f (concat (corner_rows <$> cs))
                  = concat ((λ c, transform_point C f <$> corner_rows c) <$> cs)).
  { unfold transform_points. induction cs as [|c cs IH]; [done|].
    rewrite !fmap_cons. cbn [concat]. by rewrite fmap_app, IH. }
  rewrite Hflat. unfold target_traj. change 0 with (4 * 0 + 0).
  rewrite group_groups; [done|].
  apply Forall_fmap, Forall_true. by intros c.
Qed.

End Layout.

(** ** The loop over the arms *)

Section Arms.
Context {R : Type} `{Scalar R}.
Context {Hmat SceneState Robot Warp Fit : Type}.
Context (C : Collaborators R Hmat Robot Warp Fit).

Abbreviation Strategy := (FingerStrategy R Hmat SceneState Robot Warp).
Abbreviation Demo := (Demonstration R Hmat SceneState).
Abbreviation AugTraj := (AugmentedTrajectory R Hmat).

Lemma np_c_Ok_rows (a b m : matrix R) :
  np_c_ a b = Ok m →
  length (mrows b) = length (mrows a) ∧
  length (mrows m) = length (mrows a) ∧ mcols m = mcols a + mcols b.
Proof.
  unfold np_c_. case_decide; [|done]. intros [= <-]. simpl.
  rewrite length_zip_with. lia.
Qed.

Lemma set_column_Ok_rows (m m' : matrix R) j v :
  set_column m j v = Ok m' →
  j < mcols m ∧ mcols m' = mcols m ∧
  mrows m' = (λ row : list R, <[j := v]> row) <$> mrows m.
Proof. unfold set_column. case_decide; [|done]. by intros [= <-]. Qed.

Lemma arm_pass_as_Unified (self : Strategy) f rs v lr :
  arm_pass C self f rs v lr = Unified_arm_pass C self f rs None v lr.
Proof.
  unfold arm_pass, Unified_arm_pass.
  destruct (getitem (lr2arm_traj rs) lr); [|done].
  destruct (getitem (lr2finger_traj rs) lr); done.
Qed.

Lemma arm_loop_as_Unified (self : Strategy) f rs lrs v :
  arm_loop C self f rs v lrs = Unified_arm_loop C self f rs None v lrs.
Proof.
  revert v. induction lrs as [|lr lrs IH]; intros v; [done|].
  simpl. rewrite arm_pass_as_Unified.
  destruct (Unified_arm_pass C self f rs None v lr); [apply IH | done].
Qed.

Lemma Unified_arm_pass_Ok_inv (self : Strategy) f rs warm v lr v' :
  Unified_arm_pass C self f rs warm v lr = Ok v' →
  ∃ ee_traj finger_traj,
    lr2ee_traj rs lr = Some ee_traj ∧
    lr2finger_traj rs lr = Some finger_traj ∧
    let pts := get_finger_pts_traj C (robot (sim self)) lr (ee_finger ee_traj finger_traj) in
    fl pts ≠ [] ∧ fr pts ≠ [] ∧
    manip_name v' = manip_step (manip_name v) lr ∧
    flr2finger_link_names v' = flr2finger_link_names v ++ [finger_link_name lr] ∧
    flr2demo_finger_pts_trajs_rs v' = flr2demo_finger_pts_trajs_rs v ++ [pts] ∧
    flr2finger_link_name v' = finger_link_name lr ∧
    flr2finger_rel_pts v' = get_finger_rel_pts C ∧
    last_lr v' = lr ∧
    length (mrows (init_traj v')) = length (mrows (init_traj v)) ∧
    ∃ arm finger,
      lr2arm_traj (default rs warm) lr = Some arm ∧
      lr2finger_traj (default rs warm) lr = Some finger ∧
      mcols (init_traj v') = mcols (init_traj v) + mcols arm + mcols finger ∧
      mrows (init_traj v')
        = zip_with app (zip_with app (mrows (init_traj v)) (mrows arm)) (mrows finger).
Proof.
  unfold Unified_arm_pass. intros Hp.
  apply bind_Ok_inv in Hp as (it & Hit & Hp).
  apply bind_Ok_inv in Hp as (ee & Hee & Hp).
  apply bind_Ok_inv in Hp as (fing & Hfing & Hp).
  apply bind_Ok_inv in Hp as (checked & Hchk & [= <-]).
  apply getitem_Ok_inv in Hee, Hfing.
  exists ee, fing. cbn [manip_name flr2finger_link_names flr2demo_finger_pts_trajs_rs
                        flr2finger_link_name flr2finger_rel_pts last_lr init_traj].
  assert (Hinit : ∃ arm finger,
             lr2arm_traj (default rs warm) lr = Some arm ∧
             lr2finger_traj (default rs warm) lr = Some finger ∧
             ∃ m, np_c_ (init_traj v) arm = Ok m ∧ np_c_ m finger = Ok it).
  { destruct warm as [w|]; simpl in Hit |- *;
      apply bind_Ok_inv in Hit as (arm & Harm & Hit);
      apply bind_Ok_inv in Hit as (finger & Hfinger & Hit);
      apply bind_Ok_inv in Hit as (m & Hm & Hit);
      apply getitem_Ok_inv in Harm, Hfinger; eauto 10. }
  destruct Hinit as (arm & finger & Harm & Hfinger & m & Hm & Hit').
  pose proof Hm as Hm0. pose proof Hit' as Hit0.
  apply np_c_Ok_rows in Hm as (_ & Hm1 & Hm2).
  apply np_c_Ok_rows in Hit' as (_ & Hit1 & Hit2).
  simpl in Hchk.
  apply bind_Ok_inv in Hchk as (pl & Hpl & Hchk).
  apply bind_Ok_inv in Hchk as (rest & Hrest & _).
  apply bind_Ok_inv in Hrest as (pr & Hpr & _).
  apply bind_Ok_inv in Hpl as (? & Hpl & _). apply bind_Ok_inv in Hpr as (? & Hpr & _).
  split_and!; try done.
  - intros Hnil. simpl in Hpl. by rewrite Hnil in Hpl.
  - intros Hnil. simpl in Hpr. by rewrite Hnil in Hpr.
  - lia.
  - exists arm, finger. split_and!; try done; [lia|].
    unfold np_c_ in Hm0, Hit0. repeat case_decide; try done.
    injection Hm0 as <-. injection Hit0 as <-. done.
Qed.

Lemma Unified_arm_loop_Ok_inv (self : Strategy) f rs warm lrs : ∀ v v',
  Unified_arm_loop C self f rs warm v lrs = Ok v' →
  manip_name v' = foldl manip_step (manip_name v) lrs ∧
  flr2finger_link_names v' = flr2finger_link_names v ++ (finger_link_name <$> lrs) ∧
  length (flr2demo_finger_pts_trajs_rs v')
    = length (flr2demo_finger_pts_trajs_rs v) + length lrs ∧
  length (mrows (init_traj v')) = length (mrows (init_traj v)) ∧
  (∀ lr, last lrs = Some lr →
     last_lr v' = lr ∧ flr2finger_link_name v' = finger_link_name lr ∧
     flr2finger_rel_pts v' = get_finger_rel_pts C) ∧
  (Forall (λ pts, fl pts ≠ [] ∧ fr pts ≠ []) (flr2demo_finger_pts_trajs_rs v) →
   Forall (λ pts, fl pts ≠ [] ∧ fr pts ≠ []) (flr2demo_finger_pts_trajs_rs v')).
Proof.
  induction lrs as [|lr lrs IH]; intros v v'; simpl.
  - intros [= <-]. rewrite app_nil_r. split_and!; try done; lia.
  - intros Hl. apply bind_Ok_inv in Hl as (v1 & Hv1 & Hl).
    apply Unified_arm_pass_Ok_inv in Hv1
      as (ee & fing & _ & _ & Hfl & Hfr & Hm & Hn & Hp & Hln & Hrel & Hlast & Hrows & _).
    destruct (IH _ _ Hl) as (Hm' & Hn' & Hp' & Hrows' & Hlast' & Hall').
    rewrite Hm', Hn', Hp', Hrows', Hm, Hn, Hp, Hrows, length_app. simpl.
    split_and!; try done.
    + by rewrite <- app_assoc.
    + lia.
    + intros lr' Hlr'. destruct lrs as [|lr2 lrs].
      * injection Hlr' as <-. simpl in Hl. by injection Hl as <-.
      * by apply Hlast'.
    + intros Hall. apply Hall'. rewrite Hp. apply Forall_app. split; [done|].
      by constructor.
Qed.

(** The arms that moved are the left one, the right one, both in this
    order, or none. *)
Lemma active_arms_cases (aug_traj : AugTraj) :
  active_arms C aug_traj = [] ∨ active_arms C aug_traj = [side_l] ∨
  active_arms C aug_traj = [side_r] ∨ active_arms C aug_traj = [side_l; side_r].
Proof.
  unfold active_arms. simpl.
  destruct (lr2arm_traj aug_traj side_l) as [ml|], (lr2arm_traj aug_traj side_r) as [mr|];
    repeat match goal with |- context [arm_moved C ?m] => destruct (arm_moved C m) end;
    auto.
Qed.

Lemma resample_key_no_arm (aug_traj : AugTraj) :
  resample_key C aug_traj [] = Raise ValueError.
Proof. done. Qed.

End Arms.

(** ** The decomposed transfer, arm by arm and request by request *)

Section TransferMore.
Context {R : Type} `{Scalar R}.
Context {Hmat SceneState Robot Warp Fit : Type}.
Context (C : Collaborators R Hmat Robot Warp Fit).

Abbreviation Strategy := (FingerStrategy R Hmat SceneState Robot Warp).
Abbreviation Demo := (Demonstration R Hmat SceneState).

Lemma mapM_assert_Forall {A} (P Q : A → Prop)
    `{∀ x, Decision (P x)} `{∀ x, Decision (Q x)} (xs : list A) us :
  mapM (λ x, _ ← py_assert (bool_decide (P x)); py_assert (bool_decide (Q x))) xs = Ok us →
  Forall (λ x, P x ∧ Q x) xs.
Proof.
  revert us. induction xs as [|x xs IH]; intros us; simpl; [by constructor|].
  intros Hm. apply bind_Ok_inv in Hm as (u & Hu & Hm).
  apply bind_Ok_inv in Hm as (us' & Hus & _).
  apply bind_Ok_inv in Hu as (? & HP & HQ).
  apply py_assert_Ok_inv, bool_decide_eq_true in HP, HQ.
  constructor; [done | by eapply IH].
Qed.

(** What a run that does not raise did before its loop. *)
Lemma Decomp_transfer_locals_arms (self : Strategy) (demo : Demo) scene r :
  Decomp_transfer_locals C self demo scene = Ok r →
  let robot := robot (sim self) in
  let active := active_arms C (aug_traj demo) in
  let v := tl_vars r in
  let joint_ind :=
    GetJointIndex C robot (side_str (last_lr v) +:+ "_shoulder_lift_joint") in
  ∃ key f it k s',
    resample_key C (aug_traj demo) active = Ok key ∧
    tl_demo_aug_traj_rs r
      = get_resampled_traj C (aug_traj demo) (unif_resample C key (lit 1)) ∧
    arm_loop C self f (tl_demo_aug_traj_rs r)
      (ArmVars "" [] [] (np_zeros_n_0 (length (unif_resample C key (lit 1))))
               (finger_link_name side_r) (get_finger_rel_pts C) side_r)
      active = Ok v ∧
    (if bool_decide (is_Some (init_trajectory_transferer self))
     then it = init_traj v
     else ∃ j limit,
            head (GetDOFLimits C robot [joint_ind]).1 = Some limit ∧
            list_index joint_ind (dof_inds_from_name C robot (manip_name v)) = Ok j ∧
            set_column (init_traj v) j limit = Ok it) ∧
    mcols it = length (dof_inds_from_name C robot (manip_name v)) ∧
    Forall (λ flr, length (fl flr) = length (mrows it) ∧
                   length (fr flr) = length (mrows it))
           (flr2demo_finger_pts_trajs_rs v) ∧
    base_request self (length (mrows it)) (manip_name v) false = Ok (tl_request r) ∧
    lc_request k = tl_request r ∧
    lc_vars k = v ∧
    loop C self k max_iter (LoopVars f it (tl_lambda_init r)) = Ok (s', tl_iterations r).
Proof.
  unfold Decomp_transfer_locals. intros Hr. cbv zeta in Hr.
  apply bind_Ok_inv in Hr as (pts & Hpts & Hr).
  apply bind_Ok_inv in Hr as (tau_bd & Htau & Hr).
  apply bind_Ok_inv in Hr as (key & Hkey & Hr).
  apply bind_Ok_inv in Hr as (v & Hv & Hr).
  apply bind_Ok_inv in Hr as (it & Hit & Hr).
  apply bind_Ok_inv in Hr as (? & Hcols & Hr).
  apply bind_Ok_inv in Hr as (? & Hlens & Hr).
  apply bind_Ok_inv in Hr as (? & _ & Hr).
  apply bind_Ok_inv in Hr as (req & Hreq & Hr).
  apply bind_Ok_inv in Hr as ([s' logs] & Hloop & Hr).
  injection Hr as <-. cbn [tl_vars tl_demo_aug_traj_rs tl_request tl_lambda_init
                           tl_iterations].
  apply py_assert_Ok_inv, bool_decide_eq_true in Hcols.
  apply mapM_assert_Forall in Hlens.
  lazymatch type of Hloop with
  | loop _ _ ?k _ (LoopVars ?f _ _) = _ => exists key, f, it, k, s'
  end.
  split_and!; try done.
  case_bool_decide as Hwarm.
  - by injection Hit as <-.
  - apply bind_Ok_inv in Hit as (limit & Hlimit & Hit).
    apply bind_Ok_inv in Hit as (j & Hj & Hit).
    exists j, limit. split_and!; try done.
    by destruct (GetDOFLimits C _ _).1; [|injection Hlimit as <-].
Qed.

Lemma trace_requests (self : Strategy) k s logs s' :
  trace C self k s logs s' →
  ∀ i log, logs !! i = Some log →
    n_steps (it_request log) = n_steps (lc_request k) ∧
    manip (it_request log) = manip (lc_request k) ∧
    start_fixed (it_request log) = start_fixed (lc_request k) ∧
    constraints (it_request log) = constraints (lc_request k) ∧
    it_cur_traj log = OptimizeProblem C (robot (sim self)) (it_request log) ∧
    (i = 0 → init_info (it_request log) = Some (mrows (lv_cur_traj s))) ∧
    (∀ next, logs !! S i = Some next →
       init_info (it_request next) = Some (mrows (it_cur_traj log))).
Proof.
  induction 1 as [s|s s1 s' log0 logs Hit Htr IH]; intros i log; [done|].
  pose proof (iteration_Ok_inv C _ _ _ _ _ Hit)
    as (cs & _ & _ & Hreq & Hcur & _ & _ & _ & _ & _ & _ & _ & _ & Hs1).
  destruct i as [|i]; simpl.
  - intros [= <-]. rewrite Hreq. simpl. split_and!; try done.
    + by rewrite <- Hreq.
    + intros next Hnext. destruct (IH 0 next Hnext) as (_ & _ & _ & _ & _ & Hfirst & _).
      rewrite Hfirst by done. by rewrite Hs1.
  - intros Hi. destruct (IH i log Hi) as (? & ? & ? & ? & ? & _ & ?).
    split_and!; try done.
Qed.

Lemma requests_chain (self : Strategy) (demo : Demo) scene r i log :
  Decomp_transfer_locals C self demo scene = Ok r →
  tl_iterations r !! i = Some log →
  n_steps (it_request log) = n_steps (tl_request r) ∧
  manip (it_request log) = manip_name (tl_vars r) ∧
  start_fixed (it_request log) = false ∧
  constraints (it_request log) = [] ∧
  is_Some (init_info (it_request log)) ∧
  it_cur_traj log = OptimizeProblem C (robot (sim self)) (it_request log) ∧
  (∀ next, tl_iterations r !! S i = Some next →
     init_info (it_request next) = Some (mrows (it_cur_traj log))).
Proof.
  intros Hr Hi.
  destruct (Decomp_transfer_locals_arms _ _ _ _ Hr)
    as (key & f & it & k & s' & _ & _ & _ & _ & _ & _ & Hbase & Hreq & _ & Hloop).
  apply base_request_Ok_inv in Hbase as (coeff & _ & Hbase).
  apply loop_Ok_inv in Hloop as (Htr & _).
  destruct (trace_requests _ _ _ _ _ Htr _ _ Hi) as (Hn & Hm & Hsf & Hc & Hcur & _ & Hnext).
  destruct (trace_lookup C _ _ _ _ _ _ _ Htr Hi) as (si & si' & Hit & _).
  apply iteration_Ok_inv in Hit as (cs & _ & _ & Hrq & _).
  rewrite Hreq in Hn, Hm, Hsf, Hc. rewrite Hbase in Hm, Hsf, Hc. simpl in *.
  split_and!; try done. rewrite Hrq. by eexists.
Qed.


(** The requests of a run are chained: every request has the steps, the
    manipulator and the empty constraints of the request built before the
    loop, with [start_fixed] off; the trajectory of an iteration is what the
    optimizer returns for its request; and the initial guess of the next
    request is the trajectory of this iteration. *)
Theorem requests_are_warm_started (self : Strategy) (demo : Demo) scene r i log :
  Decomp_transfer_locals C self demo scene = Ok r →
  tl_iterations r !! i = Some log →
  n_steps (it_request log) = n_steps (tl_request r) ∧
  manip (it_request log) = manip_name (tl_vars r) ∧
  start_fixed (it_request log) = false ∧
  constraints (it_request log) = [] ∧
  is_Some (init_info (it_request log)) ∧
  it_cur_traj log = OptimizeProblem C (robot (sim self)) (it_request log) ∧
  (∀ next, tl_iterations r !! S i = Some next →
     init_info (it_request next) = Some (mrows (it_cur_traj log))).
Proof. apply requests_chain. Qed.


End TransferMore.

(** ** Which arms, which links, which rows *)

Section ArmsAndRows.
Context {R : Type} `{Scalar R}.
Context {Hmat SceneState Robot Warp Fit : Type}.
Context (C : Collaborators R Hmat Robot Warp Fit).

Abbreviation Strategy := (FingerStrategy R Hmat SceneState Robot Warp).
Abbreviation Demo := (Demonstration R Hmat SceneState).

Lemma manip_name_of_arms (lrs : list side) :
  lrs = [side_l] ∨ lrs = [side_r] ∨ lrs = [side_l; side_r] →
  foldl manip_step "" lrs = String.concat "+" (manip_of_arm <$> lrs).
Proof. by intros [->|[->| ->]]. Qed.

(** The arms of a run that does not raise: at least one arm moved; the
    manipulator name joins the moved arms with ["+"], and there is one
    dictionary of link names and one demonstration contact-point trajectory
    per moved arm; but every contact-following cost of every request names a
    fingertip link of the last moved arm, the left gripper's when only the
    left arm moved. *)
Theorem contact_costs_name_the_last_moved_arm
    (self : Strategy) (demo : Demo) scene r :
  Decomp_transfer_locals C self demo scene = Ok r →
  let active := active_arms C (aug_traj demo) in
  ∃ lr, last active = Some lr ∧
    manip_name (tl_vars r) = String.concat "+" (manip_of_arm <$> active) ∧
    flr2finger_link_names (tl_vars r) = finger_link_name <$> active ∧
    length (flr2demo_finger_pts_trajs_rs (tl_vars r)) = length active ∧
    Forall (λ log,
              Forall (λ c, ∀ link, cost_link c = Some link →
                                   ∃ finger_lr, link = finger_link_name lr finger_lr)
                     (costs (it_request log)))
           (tl_iterations r).
Proof.
  intros Hr active.
  destruct (Decomp_transfer_locals_arms C _ _ _ _ Hr)
    as (key & f & it & k & s' & Hkey & _ & Hv & _).
  fold active in Hkey, Hv.
  assert (Hcases : active = [side_l] ∨ active = [side_r] ∨ active = [side_l; side_r]).
  { destruct (active_arms_cases C (aug_traj demo)) as [Hnil|Hcases]; [|done].
    unfold active in Hkey. by rewrite Hnil in Hkey. }
  rewrite arm_loop_as_Unified in Hv.
  apply Unified_arm_loop_Ok_inv in Hv as (Hm & Hn & Hp & _ & Hlast & _).
  simpl in Hm, Hn, Hp.
  assert (Hlr : ∃ lr, last active = Some lr)
    by (destruct Hcases as [->|[->| ->]]; by eexists).
  destruct Hlr as [lr Hlr]. destruct (Hlast lr Hlr) as (_ & Hlink & _).
  exists lr. split_and!; try done.
  - by rewrite Hm, manip_name_of_arms.
  - apply Forall_lookup. intros i log Hi.
    destruct (transfer_request C _ _ _ _ _ _ Hr Hi) as (_ & _ & _ & ->).
    apply Forall_cons. split; [done|]. apply Forall_app. split.
    + destruct (use_collision_cost self); [|done]. by repeat constructor.
    + apply Forall_fmap, Forall_true. intros i_step link.
      unfold contact_following_cost. simpl. rewrite Hlink. intros [= <-]. eauto.
Qed.

(** The number of steps of a run that does not raise is the number of
    resampled timesteps, it is at least two, and every demonstration
    contact-point trajectory of the moved arms has this many timesteps for
    either finger. *)
Theorem n_steps_is_the_resampled_length (self : Strategy) (demo : Demo) scene r :
  Decomp_transfer_locals C self demo scene = Ok r →
  ∃ key,
    resample_key C (aug_traj demo) (active_arms C (aug_traj demo)) = Ok key ∧
    n_steps (tl_request r) = length (unif_resample C key (lit 1)) ∧
    2 ≤ n_steps (tl_request r) ∧
    Forall (λ flr, length (fl flr) = n_steps (tl_request r) ∧
                   length (fr flr) = n_steps (tl_request r))
           (flr2demo_finger_pts_trajs_rs (tl_vars r)).
Proof.
  intros Hr.
  destruct (Decomp_transfer_locals_arms C _ _ _ _ Hr)
    as (key & f & it & k & s' & Hkey & _ & Hv & Hit & _ & Hlens & Hbase & Hreq & _ & Hloop).
  rewrite arm_loop_as_Unified in Hv.
  apply Unified_arm_loop_Ok_inv in Hv as (_ & _ & _ & Hrows & _). simpl in Hrows.
  rewrite length_replicate in Hrows.
  assert (Hit_rows : length (mrows it) = length (unif_resample C key (lit 1))).
  { case_bool_decide; [by rewrite Hit|].
    destruct Hit as (j & limit & _ & _ & Hset).
    apply set_column_Ok_rows in Hset as (_ & _ & ->). by rewrite length_fmap. }
  apply base_request_Ok_inv in Hbase as (coeff & _ & Hbase).
  assert (Hn : n_steps (tl_request r) = length (mrows it)) by (by rewrite Hbase).
  exists key. split_and!; try done.
  - by rewrite Hn.
  - apply loop_Ok_inv in Hloop as (_ & _ & Hpos & _).
    specialize (Hpos ltac:(unfold max_iter; lia)).
    destruct (tl_iterations r) as [|log logs] eqn:Hlogs; [simpl in Hpos; lia|].
    assert (Hi : tl_iterations r !! 0 = Some log) by (by rewrite Hlogs).
    destruct (transfer_request C _ _ _ _ _ _ Hr Hi) as (H1 & H0 & _).
    destruct (requests_chain C _ _ _ _ _ _ Hr Hi) as (Hsame & _). lia.
  - by rewrite Hn.
Qed.

End ArmsAndRows.

(** ** Shapes, rows and errors *)

Section ShapesAndErrors.
Context {R : Type} `{Scalar R}.
Context {Hmat SceneState Robot Warp Fit : Type}.
Context (C : Collaborators R Hmat Robot Warp Fit).

Abbreviation Strategy := (FingerStrategy R Hmat SceneState Robot Warp).
Abbreviation Demo := (Demonstration R Hmat SceneState).

(** In a run that does not raise, every array of every iteration has the
    shape of the demonstration points: the duals before and after the
    update, the achieved points, the warped points and their difference all
    have as many rows as [tau_bd], a multiple of four and at least eight. *)
Theorem duals_keep_the_shape_of_tau (self : Strategy) (demo : Demo) scene r i log :
  Decomp_transfer_locals C self demo scene = Ok r →
  tl_iterations r !! i = Some log →
  let n := length (tl_tau_bd r) in
  8 ≤ n ∧ (∃ m, n = 4 * m) ∧
  length (tl_lambda_init r) = n ∧
  length (it_lambda_bd log) = n ∧
  length (it_trajpts_traj log) = n ∧
  length (it_trajpts_tps log) = n ∧
  length (it_traj_diff log) = n ∧
  length (it_lambda_bd' log) = n.
Proof.
  intros Hr Hi n.
  destruct (transfer_iteration C _ _ _ _ _ _ Hr Hi)
    as (k & si & si' & Hit & _ & _ & _ & Htau & _ & _ & _ & _ & H8 & Hlam & Hm & Htraj
        & Hdiff & _ & Hlen & Hupd).
  destruct (Decomp_transfer_locals_inv C _ _ _ _ Hr) as (_ & _ & _ & _ & _ & _ & _ & _ & Hinit & _).
  apply iteration_Ok_inv in Hit as (_ & _ & _ & _ & _ & _ & _ & Htps & _).
  assert (Htps_len : length (it_trajpts_tps log) = n).
  { by rewrite Htps, length_transform_points, Htau. }
  assert (Hdiff_len : length (it_traj_diff log) = n) by (unfold n; lia).
  split_and!; try done; try (unfold n; lia).
  - by rewrite Hinit, length_set_column0, length_np_zeros_like.
  - rewrite Hupd, length_zip_with, length_np_scale. unfold n in *. lia.
Qed.

Lemma lookup_range4 stop j : 4 * j < stop → range4 stop !! j = Some (4 * j).
Proof.
  intros Hj. unfold range4. rewrite list_lookup_fmap, lookup_seq_lt; [done|].
  apply Nat.div_le_lower_bound; lia.
Qed.

(** The rows of the second finger are never read: when the duals have
    [8 T] rows, the contact-following cost for the second finger at timestep
    [t] carries the negation of rows [4t .. 4t+3], the same rows as the cost
    for the first finger at [t], not rows [4T + 4t ..]. *)
Theorem second_finger_costs_repeat_the_first_rows
    (self : Strategy) (demo : Demo) scene r i log T t :
  Decomp_transfer_locals C self demo scene = Ok r →
  tl_iterations r !! i = Some log →
  length (tl_tau_bd r) = 8 * T →
  t < T →
  let offset := if use_collision_cost self then 2 else 1 in
  let v := tl_vars r in
  ∃ c1 c2,
    costs (it_request log) !! (offset + t) = Some c1 ∧
    costs (it_request log) !! (offset + (T + t)) = Some c2 ∧
    cost_link c1 = Some (flr2finger_link_name v side_l) ∧
    cost_link c2 = Some (flr2finger_link_name v side_r) ∧
    cost_lambdas c1 = Some (np_neg (rows4 (it_lambda_bd log) (4 * t))) ∧
    cost_lambdas c2 = Some (np_neg (rows4 (it_lambda_bd log) (4 * t))).
Proof.
  intros Hr Hi HT Ht offset v.
  destruct (transfer_request C _ _ _ _ _ _ Hr Hi) as (_ & _ & _ & Hcosts).
  destruct (transfer_iteration C _ _ _ _ _ _ Hr Hi)
    as (k & si & si' & _ & _ & _ & _ & _ & _ & _ & _ & _ & _ & Hlam & _).
  rewrite HT in Hlam. rewrite Hlam in Hcosts.
  replace (8 * T / 2) with (4 * T) in Hcosts
    by (replace (8 * T) with (4 * T * 2) by lia; by rewrite Nat.div_mul).
  set (cfc := contact_following_cost _ _ _ _) in Hcosts.
  assert (Hlook : ∀ j, j < 2 * T →
            costs (it_request log) !! (offset + j) = Some (cfc (4 * j))).
  { intros j Hj. rewrite Hcosts. unfold offset.
    destruct (use_collision_cost self); simpl;
      rewrite list_lookup_fmap, lookup_range4 by lia; done. }
  exists (cfc (4 * t)), (cfc (4 * (T + t))).
  split_and!; try (apply Hlook; lia);
    unfold cfc, contact_following_cost; simpl.
  - by rewrite decide_True by lia.
  - by rewrite decide_False by lia.
  - by rewrite decide_True by lia.
  - rewrite decide_False by lia. do 3 f_equal. lia.
Qed.

Lemma traj_to_points_no_right_arm (self : Strategy) aug_traj :
  lr2arm_traj aug_traj side_r = None →
  traj_to_points C self aug_traj true = Raise KeyError.
Proof.
  intros Hr. unfold traj_to_points.
  assert (resample_key C aug_traj [side_r] = Raise KeyError) as ->; [|done].
  unfold resample_key. cbn [mapM]. unfold getitem. by rewrite Hr.
Qed.

(** The right arm is required: a demonstration without a right-arm joint
    trajectory makes the transfer raise [KeyError], whatever its left arm
    did. *)
Theorem Decomp_transfer_needs_the_right_arm (self : Strategy) (demo : Demo) scene :
  lr2arm_traj (aug_traj demo) side_r = None →
  Decomp_transfer C self demo scene = Raise KeyError.
Proof.
  intros Hr. unfold Decomp_transfer, Decomp_transfer_locals. cbv zeta.
  by rewrite traj_to_points_no_right_arm.
Qed.

(** When no arm moved, the transfer does not return: once the right
    gripper's demonstration points are extracted, it raises [ValueError],
    for there is nothing to resample. *)
Theorem Decomp_transfer_needs_a_moved_arm (self : Strategy) (demo : Demo) scene pts tau_bd :
  active_arms C (aug_traj demo) = [] →
  traj_to_points C self (aug_traj demo) true = Ok pts →
  points_to_array pts = Ok tau_bd →
  Decomp_transfer C self demo scene = Raise ValueError.
Proof.
  intros Hactive Hpts Htau. unfold Decomp_transfer, Decomp_transfer_locals.
  cbv zeta. rewrite Hpts. simpl. rewrite Htau. simpl. by rewrite Hactive.
Qed.

(** The warm-start transferer of the Decomp strategy is only tested for
    presence and never called: two strategies that differ in it alone, both
    having one, transfer alike. *)
Theorem Decomp_transfer_never_calls_the_warm_start
    (self : Strategy) (demo : Demo) scene t1 t2 :
  Decomp_transfer_locals C (with_init_trajectory_transferer self (Some t1)) demo scene
  = Decomp_transfer_locals C (with_init_trajectory_transferer self (Some t2)) demo scene.
Proof.
  set (s1 := with_init_trajectory_transferer self (Some t1)).
  set (s2 := with_init_trajectory_transferer self (Some t2)).
  assert (Harms : ∀ f rs lrs v, arm_loop C s1 f rs v lrs = arm_loop C s2 f rs v lrs).
  { intros f rs lrs. induction lrs as [|lr lrs IH]; intros v; [done|].
    simpl. change (arm_pass C s1 f rs v lr) with (arm_pass C s2 f rs v lr).
    destruct (arm_pass C s2 f rs v lr); [apply IH | done]. }
  assert (Hcosts : ∀ v n fixed lam dim steps,
             mapM (lambda_cost s1 v n fixed lam dim) steps
             = mapM (lambda_cost s2 v n fixed lam dim) steps).
  { intros v n fixed lam dim steps. induction steps as [|i_step steps IH]; [done|].
    simpl. rewrite IH. done. }
  assert (Hiter : ∀ k s, iteration C s1 k s = iteration C s2 k s).
  { intros k s. unfold iteration. cbv zeta. rewrite Hcosts. done. }
  assert (Hloop : ∀ k n s, loop C s1 k n s = loop C s2 k n s).
  { intros k n. induction n as [|n IH]; intros s; [done|].
    simpl. rewrite Hiter. destruct (iteration C s2 k s) as [[s' log]|]; [|done].
    simpl. destruct (it_converged log); [done|]. by rewrite IH. }
  unfold Decomp_transfer_locals. cbv zeta.
  change (traj_to_points C s1) with (traj_to_points C s2).
  destruct (traj_to_points C s2 (aug_traj demo) true) as [pts|]; [|done]. cbn [mbind result_bind].
  destruct (points_to_array pts) as [tau_bd|]; [|done]. cbn [mbind result_bind].
  destruct (resample_key C _ _) as [key|]; [|done]. cbn [mbind result_bind].
  rewrite Harms. destruct (arm_loop C s2 _ _ _ _) as [v|]; [|done]. cbn [mbind result_bind].
  rewrite (bool_decide_eq_true_2 (is_Some (init_trajectory_transferer s1))),
          (bool_decide_eq_true_2 (is_Some (init_trajectory_transferer s2)))
    by (by eexists).
  cbn [mbind result_bind].
  destruct (py_assert _) as [u|]; [|done]. cbn [mbind result_bind].
  match goal with
  | |- context [mapM ?f (flr2demo_finger_pts_trajs_rs v)] =>
      destruct (mapM f (flr2demo_finger_pts_trajs_rs v)) as [us|]; [|done]
  end.
  cbn [mbind result_bind].
  destruct (py_assert _) as [u'|]; [|done]. cbn [mbind result_bind].
  change (base_request s1) with (base_request s2).
  destruct (base_request s2 _ _ _) as [req|]; [|done]. cbn [mbind result_bind].
  rewrite Hloop. done.
Qed.

(** ** The unified transfer *)

(** When no arm moved, the unified transfer raises [ValueError]. *)
Theorem Unified_transfer_needs_a_moved_arm
    (plan : Planner) (self : Strategy) (demo : Demo) scene :
  active_arms C (aug_traj demo) = [] →
  Unified_transfer C plan self demo scene = Raise ValueError.
Proof.
  intros Hactive. unfold Unified_transfer, Unified_transfer_locals.
  cbv zeta. by rewrite Hactive.
Qed.

(** What the unified transfer hands to the planner and what it returns: at
    least one arm moved; the manipulator name joins the moved arms; there is
    one link-name dictionary and one demonstration contact-point trajectory,
    with a timestep for either finger, per moved arm; the initial trajectory
    has one row per resampled timestep; the warp is the registration's; and
    the call returns the augmented trajectory rebuilt from the planner's
    joint trajectory with the resampled demonstration's open and close
    events. *)
Theorem Unified_transfer_plans_for_the_moved_arms
    (plan : Planner) (self : Strategy) (demo : Demo) scene r :
  Unified_transfer_locals C plan self demo scene = Ok r →
  let robot := robot (sim self) in
  let active := active_arms C (aug_traj demo) in
  let v := ul_vars r in
  active ≠ [] ∧
  manip_name v = String.concat "+" (manip_of_arm <$> active) ∧
  flr2finger_link_names v = finger_link_name <$> active ∧
  length (flr2demo_finger_pts_trajs_rs v) = length active ∧
  Forall (λ pts, fl pts ≠ [] ∧ fr pts ≠ []) (flr2demo_finger_pts_trajs_rs v) ∧
  length (mrows (ul_init_traj r)) = length (ul_timesteps_rs r) ∧
  ul_f r = reg_f (register (registration_factory (base self)) demo scene) ∧
  ul_test_traj r
    = (plan robot (manip_name v) (flr2finger_link_names v) (flr2finger_rel_pts v)
            (flr2demo_finger_pts_trajs_rs v) (ul_init_traj r) (ul_f r)
            (use_collision_cost self) false (alpha self) (beta_pos self) (gamma self)).1.1.1 ∧
  Unified_transfer C plan self demo scene
    = Ok (create_from_full_traj C robot
            (ul_test_traj r, dof_inds_from_name C robot (manip_name v))
            (lr2open_finger_traj (ul_demo_aug_traj_rs r))
            (lr2close_finger_traj (ul_demo_aug_traj_rs r))).
Proof.
  intros Hr robot active v. unfold Unified_transfer. rewrite Hr. simpl.
  unfold Unified_transfer_locals in Hr. cbv zeta in Hr. fold active in Hr.
  apply bind_Ok_inv in Hr as (key & Hkey & Hr).
  apply bind_Ok_inv in Hr as (v0 & Hv & Hr).
  apply bind_Ok_inv in Hr as (it & Hit & Hr).
  destruct (plan _ _ _ _ _ _ _ _ _ _ _ _) as [[[test_traj obj] rel] tps] eqn:Hplan.
  injection Hr as <-. subst v. simpl.
  assert (Hcases : active = [side_l] ∨ active = [side_r] ∨ active = [side_l; side_r]).
  { destruct (active_arms_cases C (aug_traj demo)) as [Hnil|Hcases]; [|done].
    unfold active in Hkey. by rewrite Hnil in Hkey. }
  apply Unified_arm_loop_Ok_inv in Hv as (Hm & Hn & Hp & Hrows & _ & Hall).
  simpl in Hm, Hn, Hp, Hrows. rewrite length_replicate in Hrows.
  split_and!; try done.
  - by destruct Hcases as [->|[->| ->]].
  - by rewrite Hm, manip_name_of_arms.
  - by apply Hall.
  - case_bool_decide; [by injection Hit as <-|].
    apply bind_Ok_inv in Hit as (limit & _ & Hit).
    apply bind_Ok_inv in Hit as (j & _ & Hit).
    apply set_column_Ok_rows in Hit as (_ & _ & ->). by rewrite length_fmap.
  - unfold robot. by rewrite Hplan.
Qed.

End ShapesAndErrors.

(** ** More concrete runs *)

Section MoreRuns.
Import Example Example2.
Local Open Scope Q_scope.

Lemma Greedy_first_action_is_cheapest_witness :
  ActionSelection.plan_agenda three_demos tt
    = Ok (inr ["demo2"; "demo1"; "demo3"], inl [1 # 5; 3 # 2; 3 # 2]) ∧
  ∃ action q_value,
    head ["demo2"; "demo1"; "demo3"] = Some action ∧
    head [1 # 5; 3 # 2; 3 # 2] = Some q_value ∧
    ActionSelection.batch_cost three_demos tt !! action = Some q_value ∧
    ∀ other q, ActionSelection.batch_cost three_demos tt !! other = Some q → q_value <= q.
Proof.
  assert (Hrun : ActionSelection.plan_agenda three_demos tt
                 = Ok (inr ["demo2"; "demo1"; "demo3"], inl [1 # 5; 3 # 2; 3 # 2]))
    by (vm_compute; reflexivity).
  split; [exact Hrun|].
  exact (Greedy_first_action_is_cheapest three_demos tt _ _ Hrun).
Defined.

Lemma Greedy_ties_are_ordered_by_name_witness :
  ActionSelection.plan_agenda three_demos tt
    = Ok (inr ["demo2"; "demo1"; "demo3"], inl [1 # 5; 3 # 2; 3 # 2]) ∧
  String.leb "demo1" "demo3" = true.
Proof.
  assert (Hrun : ActionSelection.plan_agenda three_demos tt
                 = Ok (inr ["demo2"; "demo1"; "demo3"], inl [1 # 5; 3 # 2; 3 # 2]))
    by (vm_compute; reflexivity).
  split; [exact Hrun|].
  apply (Greedy_ties_are_ordered_by_name three_demos tt _ _ 1%nat "demo1" "demo3"
           (3 # 2) (3 # 2) Hrun); reflexivity.
Defined.

Lemma points_to_array_layout_witness :
  points_to_array other_squares
    = Ok (replicate 4 (pt 7 7 7) ++ replicate 4 (pt 8 8 8)
          ++ replicate 4 (pt 9 9 9) ++ replicate 4 (pt 10 10 10)) ∧
  rows4 (replicate 4 (pt 7 7 7) ++ replicate 4 (pt 8 8 8)
         ++ replicate 4 (pt 9 9 9) ++ replicate 4 (pt 10 10 10)) (4 * (2 + 1))
  = corner_rows (square 10).
Proof.
  assert (Hrun : points_to_array other_squares
                 = Ok (replicate 4 (pt 7 7 7) ++ replicate 4 (pt 8 8 8)
                       ++ replicate 4 (pt 9 9 9) ++ replicate 4 (pt 10 10 10)))
    by reflexivity.
  split; [exact Hrun|].
  destruct (points_to_array_layout _ _ Hrun) as (_ & _ & _ & _ & Hright).
  exact (Hright 1%nat (square 10) eq_refl).
Defined.

Lemma target_traj_of_warped_points_witness :
  points_to_array other_squares
    = Ok (replicate 4 (pt 7 7 7) ++ replicate 4 (pt 8 8 8)
          ++ replicate 4 (pt 9 9 9) ++ replicate 4 (pt 10 10 10)) ∧
  target_traj (transform_points (world 1 two_squares) []
                 (replicate 4 (pt 7 7 7) ++ replicate 4 (pt 8 8 8)
                  ++ replicate 4 (pt 9 9 9) ++ replicate 4 (pt 10 10 10)))
  = [replicate 4 (pt 7 7 7); replicate 4 (pt 8 8 8);
     replicate 4 (pt 9 9 9); replicate 4 (pt 10 10 10)].
Proof.
  assert (Hrun : points_to_array other_squares
                 = Ok (replicate 4 (pt 7 7 7) ++ replicate 4 (pt 8 8 8)
                       ++ replicate 4 (pt 9 9 9) ++ replicate 4 (pt 10 10 10)))
    by reflexivity.
  split; [exact Hrun|].
  exact (target_traj_of_warped_points (world 1 two_squares) [] other_squares _ Hrun).
Defined.

Lemma requests_are_warm_started_witness :
  ∃ r log next,
    Decomp_transfer_locals (world 1 two_squares) strategy demo tt = Ok r ∧
    tl_iterations r !! 0%nat = Some log ∧
    tl_iterations r !! 1%nat = Some next ∧
    init_info (it_request next) = Some (mrows (it_cur_traj log)).
Proof.
  eexists _, _, _. split; [vm_compute; reflexivity|].
  split; [reflexivity|]. split; [reflexivity|].
  eapply (requests_are_warm_started (world 1 two_squares) strategy demo tt _ 0%nat);
    vm_compute; reflexivity.
Defined.


Lemma contact_costs_name_the_last_moved_arm_witness :
  ∃ r,
    Decomp_transfer_locals left_moves_world strategy still_right_demo tt = Ok r ∧
    let active := active_arms left_moves_world (aug_traj still_right_demo) in
    ∃ lr, last active = Some lr ∧
      manip_name (tl_vars r) = String.concat "+" (manip_of_arm <$> active) ∧
      flr2finger_link_names (tl_vars r) = finger_link_name <$> active ∧
      length (flr2demo_finger_pts_trajs_rs (tl_vars r)) = length active ∧
      Forall (λ log,
                Forall (λ c, ∀ link, cost_link c = Some link →
                                     ∃ finger_lr, link = finger_link_name lr finger_lr)
                       (costs (it_request log)))
             (tl_iterations r).
Proof.
  eexists. split; [vm_compute; reflexivity|].
  apply (contact_costs_name_the_last_moved_arm left_moves_world strategy still_right_demo tt);
    vm_compute; reflexivity.
Defined.

Lemma n_steps_is_the_resampled_length_witness :
  ∃ r,
    Decomp_transfer_locals (world 0 two_squares) strategy demo tt = Ok r ∧
    ∃ key,
      resample_key (world 0 two_squares) (aug_traj demo)
        (active_arms (world 0 two_squares) (aug_traj demo)) = Ok key ∧
      n_steps (tl_request r) = length (unif_resample (world 0 two_squares) key (lit 1)) ∧
      (2 ≤ n_steps (tl_request r))%nat ∧
      Forall (λ flr, length (fl flr) = n_steps (tl_request r) ∧
                     length (fr flr) = n_steps (tl_request r))
             (flr2demo_finger_pts_trajs_rs (tl_vars r)).
Proof.
  eexists. split; [vm_compute; reflexivity|].
  apply (n_steps_is_the_resampled_length (world 0 two_squares) strategy demo tt);
    vm_compute; reflexivity.
Defined.

Lemma duals_keep_the_shape_of_tau_witness :
  ∃ r log,
    Decomp_transfer_locals (world 0 two_squares) strategy demo tt = Ok r ∧
    tl_iterations r !! 0%nat = Some log ∧
    let n := length (tl_tau_bd r) in
    (8 ≤ n)%nat ∧ (∃ m, n = (4 * m)%nat) ∧
    length (tl_lambda_init r) = n ∧
    length (it_lambda_bd log) = n ∧
    length (it_trajpts_traj log) = n ∧
    length (it_trajpts_tps log) = n ∧
    length (it_traj_diff log) = n ∧
    length (it_lambda_bd' log) = n.
Proof.
  eexists _, _. split; [vm_compute; reflexivity|]. split; [reflexivity|].
  apply (duals_keep_the_shape_of_tau (world 0 two_squares) strategy demo tt _ 0%nat);
    vm_compute; reflexivity.
Defined.

Lemma second_finger_costs_repeat_the_first_rows_witness :
  ∃ r log,
    Decomp_transfer_locals (world 0 two_squares) strategy demo tt = Ok r ∧
    tl_iterations r !! 0%nat = Some log ∧
    length (tl_tau_bd r) = (8 * 2)%nat ∧
    (1 < 2)%nat ∧
    let offset := if use_collision_cost strategy then 2%nat else 1%nat in
    let v := tl_vars r in
    ∃ c1 c2,
      costs (it_request log) !! (offset + 1)%nat = Some c1 ∧
      costs (it_request log) !! (offset + (2 + 1))%nat = Some c2 ∧
      cost_link c1 = Some (flr2finger_link_name v side_l) ∧
      cost_link c2 = Some (flr2finger_link_name v side_r) ∧
      cost_lambdas c1 = Some (np_neg (rows4 (it_lambda_bd log) (4 * 1))) ∧
      cost_lambdas c2 = Some (np_neg (rows4 (it_lambda_bd log) (4 * 1))).
Proof.
  eexists _, _. split; [vm_compute; reflexivity|]. split; [reflexivity|].
  split; [reflexivity|]. split; [lia|].
  apply (second_finger_costs_repeat_the_first_rows
           (world 0 two_squares) strategy demo tt _ 0%nat _ 2%nat 1%nat);
    [vm_compute; reflexivity | reflexivity | reflexivity | lia].
Defined.

Lemma Decomp_transfer_needs_the_right_arm_witness :
  lr2arm_traj (aug_traj left_demo) side_r = None ∧
  Decomp_transfer left_moves_world strategy left_demo tt = Raise KeyError.
Proof.
  split; [reflexivity|].
  apply (Decomp_transfer_needs_the_right_arm left_moves_world strategy left_demo tt).
  reflexivity.
Defined.

Lemma Decomp_transfer_needs_a_moved_arm_witness :
  ∃ pts tau_bd,
    active_arms still_world (aug_traj demo) = [] ∧
    traj_to_points still_world strategy (aug_traj demo) true = Ok pts ∧
    points_to_array pts = Ok tau_bd ∧
    Decomp_transfer still_world strategy demo tt = Raise ValueError.
Proof.
  eexists _, _. split; [reflexivity|].
  split; [vm_compute; reflexivity|]. split; [vm_compute; reflexivity|].
  eapply (Decomp_transfer_needs_a_moved_arm still_world strategy demo tt);
    vm_compute; reflexivity.
Defined.

Lemma Unified_transfer_needs_a_moved_arm_witness :
  active_arms still_world (aug_traj demo) = [] ∧
  Unified_transfer still_world echo_planner strategy demo tt = Raise ValueError.
Proof.
  split; [reflexivity|].
  apply (Unified_transfer_needs_a_moved_arm still_world echo_planner strategy demo tt).
  reflexivity.
Defined.

Lemma Unified_transfer_plans_for_the_moved_arms_witness :
  ∃ r,
    Unified_transfer_locals (world 1 two_squares) echo_planner warm_strategy demo tt = Ok r ∧
    let C := world 1 two_squares in
    let robot := robot (sim warm_strategy) in
    let active := active_arms C (aug_traj demo) in
    let v := ul_vars r in
    active ≠ [] ∧
    manip_name v = String.concat "+" (manip_of_arm <$> active) ∧
    flr2finger_link_names v = finger_link_name <$> active ∧
    length (flr2demo_finger_pts_trajs_rs v) = length active ∧
    Forall (λ pts, fl pts ≠ [] ∧ fr pts ≠ []) (flr2demo_finger_pts_trajs_rs v) ∧
    length (mrows (ul_init_traj r)) = length (ul_timesteps_rs r) ∧
    ul_f r = reg_f (register (registration_factory (base warm_strategy)) demo tt) ∧
    ul_test_traj r
      = (echo_planner robot (manip_name v) (flr2finger_link_names v) (flr2finger_rel_pts v)
           (flr2demo_finger_pts_trajs_rs v) (ul_init_traj r) (ul_f r)
           (use_collision_cost warm_strategy) false (alpha warm_strategy)
           (beta_pos warm_strategy) (gamma warm_strategy)).1.1.1 ∧
    Unified_transfer C echo_planner warm_strategy demo tt
      = Ok (create_from_full_traj C robot
              (ul_test_traj r, dof_inds_from_name C robot (manip_name v))
              (lr2open_finger_traj (ul_demo_aug_traj_rs r))
              (lr2close_finger_traj (ul_demo_aug_traj_rs r))).
Proof.
  eexists. split; [vm_compute; reflexivity|].
  apply (Unified_transfer_plans_for_the_moved_arms
           (world 1 two_squares) echo_planner warm_strategy demo tt);
    vm_compute; reflexivity.
Defined.

Lemma loop_stops_at_convergence_or_cap_witness :
  ∃ r,
    Decomp_transfer_locals (world 0 two_squares) strategy demo tt = Ok r ∧
    (0 < length (tl_iterations r) ≤ 20)%nat ∧
    (∀ i log, tl_iterations r !! i = Some log →
       it_converged log
       = rltb (it_abs_traj_diff log)
              (rmul (lit 1e-2) (of_int (np_size (tl_lambda_init r))))) ∧
    (∀ i log, tl_iterations r !! i = Some log →
       (S i < length (tl_iterations r))%nat → it_converged log = false) ∧
    ∃ log, last (tl_iterations r) = Some log ∧
           ((length (tl_iterations r) < 20)%nat → it_converged log = true) ∧
           tl_cur_traj r = it_cur_traj log ∧
           tl_lambda_bd r = it_lambda_bd' log.
Proof.
  eexists. split; [vm_compute; reflexivity|].
  apply (loop_stops_at_convergence_or_cap (world 0 two_squares) strategy demo tt);
    vm_compute; reflexivity.
Defined.


End MoreRuns.
